(** * agritech_hackathon: upload handler, model-spec registry and data loader

    A shallow embedding of the three Python modules of the repository:

    - [ModelSpec]: [model_spec/__init__.py], the registry [MODEL_SPECS] and [get];
    - [DataUtil]:  [data_util/dataloader.py], [DataLoader] and
                   [ClassificationDataLoader], with numbers as exact
                   rationals; [DataUtilFloat] has [split] on binary64
                   floats;
    - [App]:       [app-final.py], the Flask routes [index] and [upload],
                   written against the interface [App.Platform] of the
                   file system; [Posix] is an instance with directories
                   and path resolution.

    Python exceptions are values of [exn]; a computation that may raise returns
    a [result]; a computation that also reads or writes a store (the object
    heap, the file system) is a function of the store that returns the outcome
    together with the store it leaves behind. *)

From Stdlib Require Import ZArith NArith QArith Qround String Ascii List Sorting.Sorted Permutation Lia Lqa.
From Stdlib Require Import Floats.SpecFloat.
From stdpp Require Import base option list gmap strings sets sorting.

Local Open Scope string_scope.
Local Open Scope list_scope.
Local Open Scope Z_scope.

(** ** Exceptions and the two monads *)

Inductive exn : Type :=
| KeyError (key : string)
| AssertionError
| TypeError
| ValueError
| OverflowError
| AttributeError (attr : string)
| UnboundLocalError (var : string)
| IndexError
| UnicodeDecodeError
| NotFoundError (path : string)
| FileNotFoundError (path : string)
| NotADirectoryError (path : string)
| IsADirectoryError (path : string)
| FileExistsError (path : string)
| ExternalError (msg : string).

Definition result (A : Type) : Type := exn + A.

Definition Ok {A} (a : A) : result A := inr a.
Definition Raise {A} (e : exn) : result A := inl e.

Definition rbind {A B} (r : result A) (k : A → result B) : result B :=
  match r with
  | inl e => inl e
  | inr a => k a
  end.

(** A computation over a store [S]: the store is threaded through, and an
    exception keeps the store as it was when it was raised. *)
Definition M (S A : Type) : Type := S → result A * S.

Definition ret {S A} (a : A) : M S A := λ s, (inr a, s).
Definition raise {S A} (e : exn) : M S A := λ s, (inl e, s).
Definition bind {S A B} (m : M S A) (k : A → M S B) : M S B :=
  λ s, match m s with
       | (inl e, s') => (inl e, s')
       | (inr a, s') => k a s'
       end.
Definition lift {S A} (r : result A) : M S A := λ s, (r, s).
Definition gets {S A} (f : S → A) : M S A := λ s, (inr (f s), s).

Notation "'let!' x ':=' m 'in' k" := (bind m (λ x, k))
  (at level 10, x name, m at level 100, k at level 200, only parsing).
Notation "'run!' m 'in' k" := (bind m (λ _, k))
  (at level 10, m at level 100, k at level 200, only parsing).

(** Python's [x < y] on numbers. Floating-point numbers are modelled by the
    rationals they denote; the rounding of a product is modelled where the
    result is cut to an integer, in [DataUtilFloat]. *)
Definition Qltb (x y : Q) : bool :=
  match Qcompare x y with Lt => true | _ => false end.

(** ** model_spec/__init__.py *)

Module ModelSpec.

(** The Python values [get] distinguishes: [isinstance(v, str)],
    [inspect.isclass(v)], [inspect.isfunction(v)], and everything else
    (a spec instance, a [functools.partial], ...). *)
Inductive value : Type :=
| Str (s : string)
| Class (name : string)
| Function (name : string)
| Object (name : string).

Definition isinstance_str (v : value) : bool :=
  match v with Str _ => true | _ => false end.
Definition isclass (v : value) : bool :=
  match v with Class _ => true | _ => false end.
Definition isfunction (v : value) : bool :=
  match v with Function _ => true | _ => false end.

(** The names imported from [image_spec] and [text_spec], which are not part
    of the sources at hand: each is some Python value. *)
Record imports : Type := {
  efficientnet_lite0_spec : value;
  efficientnet_lite1_spec : value;
  efficientnet_lite2_spec : value;
  efficientnet_lite3_spec : value;
  efficientnet_lite4_spec : value;
  mobilenet_v2_spec : value;
  resnet_50_spec : value;
  average_word_vec_spec : value;
  bert_spec : value;
  bert_classifier_spec : value;
  bert_qa_spec : value;
  mobilebert_classifier_spec : value;
  mobilebert_qa_spec : value;
  mobilebert_qa_squad_spec : value
}.

Definition IMAGE_CLASSIFICATION_MODELS : list string :=
  [ "efficientnet_lite0"; "efficientnet_lite1"; "efficientnet_lite2";
    "efficientnet_lite3"; "efficientnet_lite4"; "mobilenet_v2"; "resnet_50" ].
Definition TEXT_CLASSIFICATION_MODELS : list string :=
  [ "bert_classifier"; "average_word_vec"; "mobilebert_classifier" ].
Definition QUESTION_ANSWERING_MODELS : list string :=
  [ "bert_qa"; "mobilebert_qa"; "mobilebert_qa_squad" ].

Section Registry.
Variable env : imports.
(** [call v] is the outcome of the Python call [v()] of a class or a
    function with no arguments. *)
Variable call : value → result value.

Definition MODEL_SPECS_items : list (string * value) :=
  [ ("efficientnet_lite0", efficientnet_lite0_spec env);
    ("efficientnet_lite1", efficientnet_lite1_spec env);
    ("efficientnet_lite2", efficientnet_lite2_spec env);
    ("efficientnet_lite3", efficientnet_lite3_spec env);
    ("efficientnet_lite4", efficientnet_lite4_spec env);
    ("mobilenet_v2", mobilenet_v2_spec env);
    ("resnet_50", resnet_50_spec env);
    ("average_word_vec", average_word_vec_spec env);
    ("bert", bert_spec env);
    ("bert_classifier", bert_classifier_spec env);
    ("bert_qa", bert_qa_spec env);
    ("mobilebert_classifier", mobilebert_classifier_spec env);
    ("mobilebert_qa", mobilebert_qa_spec env);
    ("mobilebert_qa_squad", mobilebert_qa_squad_spec env) ].

Definition MODEL_SPECS : gmap string value := list_to_map MODEL_SPECS_items.

(** [MODEL_SPECS[key]] *)
Definition MODEL_SPECS_getitem (key : string) : result value :=
  match MODEL_SPECS !! key with
  | Some v => Ok v
  | None => Raise (KeyError key)
  end.

Definition get (spec_or_str : value) : result value :=
  rbind (match spec_or_str with
         | Str s => MODEL_SPECS_getitem s
         | _ => Ok spec_or_str
         end)
        (λ model_spec,
           if isclass model_spec || isfunction model_spec
           then call model_spec
           else Ok model_spec).
End Registry.

End ModelSpec.

(** ** data_util/dataloader.py *)

Module DataUtil.

(** [tf.data.experimental.AUTOTUNE] *)
Definition AUTOTUNE : Z := -1.

(** [tf.distribute.InputContext], as far as [_shard] reads it. *)
Record InputContext : Type := {
  num_input_pipelines : Z;
  input_pipeline_id : Z
}.

(** The two classes of the module. *)
Inductive class : Type := cls_DataLoader | cls_ClassificationDataLoader.

(** Python's [int(x)] of a number: truncation towards zero. *)
Definition int (x : Q) : Z := Z.quot (Qnum x) (Z.pos (Qden x)).

Section Dataset.
(** The elements of a dataset and the functions mapped over them are the
    framework's. *)
Context {Elem Fn : Type}.

(** A [tf.data.Dataset]: a source and the transformations applied to it,
    innermost first. Datasets are immutable, every method returns a new
    one. *)
Inductive dataset : Type :=
| Source (elements : list Elem)
| Shard (num_shards index : Z) (ds : dataset)
| Map (map_func : Fn) (num_parallel_calls : Z) (ds : dataset)
| Shuffle (buffer_size : Z) (ds : dataset)
| Repeat (ds : dataset)
| Batch (batch_size : Z) (ds : dataset)
| Prefetch (buffer_size : Z) (ds : dataset)
| Take (count : Z) (ds : dataset)
| Skip (count : Z) (ds : dataset).

(** One call of the dataset API. *)
Inductive transformation : Type :=
| shard (num_shards index : Z)
| map_ (map_func : Fn) (num_parallel_calls : Z)
| shuffle_ (buffer_size : Z)
| repeat_
| batch (batch_size : Z)
| prefetch (buffer_size : Z)
| take_ (count : Z)
| skip (count : Z).

(** The calls that built a dataset from its source, in call order. *)
Fixpoint transformations (ds : dataset) : list transformation :=
  match ds with
  | Source _ => []
  | Shard n i d => transformations d ++ [shard n i]
  | Map f k d => transformations d ++ [map_ f k]
  | Shuffle b d => transformations d ++ [shuffle_ b]
  | Repeat d => transformations d ++ [repeat_]
  | Batch b d => transformations d ++ [batch b]
  | Prefetch b d => transformations d ++ [prefetch b]
  | Take c d => transformations d ++ [take_ c]
  | Skip c d => transformations d ++ [skip c]
  end.

(** The elements of a dataset built from a source by [take] and [skip]
    alone. A negative count takes everything, respectively skips
    everything. *)
Fixpoint elements_of (ds : dataset) : option (list Elem) :=
  match ds with
  | Source l => Some l
  | Take c d =>
      l ← elements_of d;
      Some (if c <? 0 then l else firstn (Z.to_nat c) l)
  | Skip c d =>
      l ← elements_of d;
      Some (if c <? 0 then [] else skipn (Z.to_nat c) l)
  | _ => None
  end.

Definition _shard (ds : dataset) (input_pipeline_context : option InputContext)
  : dataset :=
  match input_pipeline_context with
  | Some ctx =>
      if 1 <? num_input_pipelines ctx
      then Shard (num_input_pipelines ctx) (input_pipeline_id ctx) ds
      else ds
  | None => ds
  end.

(** An instance of [DataLoader] or of [ClassificationDataLoader], with
    the attributes its constructor sets. *)
Inductive object : Type :=
| DataLoader (dataset : dataset) (size : Z)
| ClassificationDataLoader (dataset : dataset) (size : Z)
    (index_to_label : list string).

Definition __class__ (o : object) : class :=
  match o with
  | DataLoader _ _ => cls_DataLoader
  | ClassificationDataLoader _ _ _ => cls_ClassificationDataLoader
  end.
Definition _dataset (o : object) : dataset :=
  match o with
  | DataLoader ds _ | ClassificationDataLoader ds _ _ => ds
  end.
Definition _size (o : object) : Z :=
  match o with
  | DataLoader _ n | ClassificationDataLoader _ n _ => n
  end.
Definition index_to_label (o : object) : option (list string) :=
  match o with
  | DataLoader _ _ => None
  | ClassificationDataLoader _ _ labels => Some labels
  end.

(** Instances live in a heap and are passed around by reference. *)
Local Abbreviation ref := nat.
Local Abbreviation heap := (list object).

Definition alloc (o : object) : M heap ref :=
  λ h, (inr (length h), h ++ [o]).

Definition deref (r : ref) : M heap object :=
  λ h, match h !! r with
       | Some o => (inr o, h)
       | None => (inl (ExternalError "invalid reference"), h)
       end.

(** [cls(dataset, size, *args)]: [DataLoader.__init__] takes no further
    argument, [ClassificationDataLoader.__init__] takes [index_to_label]. *)
Definition new (cls : class) (ds : dataset) (size : Z)
    (args : list (list string)) : M heap ref :=
  match cls, args with
  | cls_DataLoader, [] => alloc (DataLoader ds size)
  | cls_ClassificationDataLoader, [labels] =>
      alloc (ClassificationDataLoader ds size labels)
  | _, _ => raise TypeError
  end.

Definition gen_dataset (self : ref) (batch_size : Z) (is_training shuffle : bool)
    (input_pipeline_context : option InputContext) (preprocess : option Fn)
  : M heap dataset :=
  let! o := deref self in
  let ds := _dataset o in
  let ds := _shard ds input_pipeline_context in
  let ds := match preprocess with
            | Some f => Map f AUTOTUNE ds
            | None => ds
            end in
  let ds := if is_training
            then
              let ds := if shuffle
                        then
                          let buffer_size := 3 * batch_size in
                          Shuffle (Z.min (_size o) buffer_size) ds
                        else ds in
              Repeat ds
            else ds in
  let ds := Batch batch_size ds in
  let ds := Prefetch AUTOTUNE ds in
  ret ds.

Definition __len__ (self : ref) : M heap Z :=
  let! o := deref self in
  ret (_size o).

(** The builtin [len(loader)]: it calls [__len__] and accepts the result
    if it is not negative and fits an index, that is, if it is at most
    [sys.maxsize]. *)
Definition len (sys_maxsize : Z) (self : ref) : M heap Z :=
  let! n := __len__ self in
  if n <? 0 then raise ValueError
  else if sys_maxsize <? n then raise OverflowError
  else ret n.

(** [_split], the fraction and the product being exact numbers; the
    rounding of the float product is in [DataUtilFloat._split]. *)
Definition _split (self : ref) (fraction : Q) (args : list (list string))
  : M heap (ref * ref) :=
  let! o := deref self in
  if negb (Qltb 0 fraction && Qltb fraction 1) then raise AssertionError
  else
    let ds := _dataset o in
    let train_size := int (inject_Z (_size o) * fraction) in
    let! trainset := new (__class__ o) (Take train_size ds) train_size args in
    let test_size := _size o - train_size in
    let! testset := new (__class__ o) (Skip train_size ds) test_size args in
    ret (trainset, testset).

Definition DataLoader_split (self : ref) (fraction : Q) : M heap (ref * ref) :=
  _split self fraction [].

Definition getattr_index_to_label (self : ref) : M heap (list string) :=
  let! o := deref self in
  match index_to_label o with
  | Some labels => ret labels
  | None => raise (AttributeError "index_to_label")
  end.

Definition num_classes (self : ref) : M heap Z :=
  let! labels := getattr_index_to_label self in
  ret (Z.of_nat (length labels)).

Definition ClassificationDataLoader_split (self : ref) (fraction : Q)
  : M heap (ref * ref) :=
  let! labels := getattr_index_to_label self in
  _split self fraction [labels].

(** [loader.split(fraction)]: the method of the instance's class. *)
Definition split (self : ref) (fraction : Q) : M heap (ref * ref) :=
  let! o := deref self in
  match __class__ o with
  | cls_DataLoader => DataLoader_split self fraction
  | cls_ClassificationDataLoader => ClassificationDataLoader_split self fraction
  end.

(** The instance [self.__class__(ds, size, *args)] builds in [_split]
    when [args] are the further constructor arguments of [o]: an
    instance of the class of [o], with the label mapping of [o] if it
    has one. *)
Definition sibling (o : object) (ds : dataset) (size : Z) : object :=
  match o with
  | DataLoader _ _ => DataLoader ds size
  | ClassificationDataLoader _ _ labels => ClassificationDataLoader ds size labels
  end.

(** The calls of the dataset API that the description of [gen_dataset]
    lists, in the order it lists them; to be compared with what
    [gen_dataset] does. *)
Definition described_calls (size batch_size : Z) (is_training shuffle : bool)
    (input_pipeline_context : option InputContext) (preprocess : option Fn)
  : list transformation :=
  (match input_pipeline_context with
   | Some ctx =>
       if 1 <? num_input_pipelines ctx
       then [shard (num_input_pipelines ctx) (input_pipeline_id ctx)]
       else []
   | None => []
   end)
  ++ (match preprocess with Some f => [map_ f AUTOTUNE] | None => [] end)
  ++ (if is_training && shuffle
      then [shuffle_ (Z.min size (3 * batch_size))] else [])
  ++ (if is_training then [repeat_] else [])
  ++ [batch batch_size; prefetch AUTOTUNE].

(** [ds.shard(...)], [ds.map(...)], ...: one call on a dataset. *)
Definition apply_call (ds : dataset) (t : transformation) : dataset :=
  match t with
  | shard n i => Shard n i ds
  | map_ f k => Map f k ds
  | shuffle_ b => Shuffle b ds
  | repeat_ => Repeat ds
  | batch b => Batch b ds
  | prefetch b => Prefetch b ds
  | take_ c => Take c ds
  | skip c => Skip c ds
  end.

(** The place of a call in the order shard, map, shuffle, repeat, batch,
    prefetch. *)
Definition stage (t : transformation) : nat :=
  match t with
  | shard _ _ => 0
  | map_ _ _ => 1
  | shuffle_ _ => 2
  | repeat_ => 3
  | batch _ => 4
  | prefetch _ => 5
  | take_ _ | skip _ => 6
  end.
End Dataset.

Arguments dataset : clear implicits.
Arguments transformation : clear implicits.
Arguments object : clear implicits.
Abbreviation ref := nat.
Abbreviation heap Elem Fn := (list (object Elem Fn)).

End DataUtil.


(** ** data_util/dataloader.py: [split] with the fraction as a float *)

Module DataUtilFloat.
Import DataUtil.

(** A Python [float] is a binary64 number of IEEE 754: 53 bits of
    precision, exponents up to 1024. *)
Definition prec : Z := 53.
Definition emax : Z := 1024.
Abbreviation float := spec_float.

(** The float an integer is converted to when it meets a float in an
    arithmetic operation: the nearest one, ties to even; an integer too
    large for a float raises [OverflowError]. *)
Definition float_of_int (n : Z) : result float :=
  match binary_normalize prec emax n 0 false with
  | S754_infinity _ => Raise OverflowError
  | x => Ok x
  end.

(** [x * y] on floats: the product, rounded to the nearest float. *)
Definition float_mul (x y : float) : float := SFmul prec emax x y.

(** [n * x] for an integer [n] and a float [x]. *)
Definition int_mul_float (n : Z) (x : float) : result float :=
  rbind (float_of_int n) (λ y, Ok (float_mul y x)).

Definition zero : float := S754_zero false.
Definition one : float := S754_finite false 4503599627370496 (-52).

(** [int(x)] of a float: truncation towards zero; an infinity raises
    [OverflowError], a NaN [ValueError]. *)
Definition int (x : float) : result Z :=
  match x with
  | S754_zero _ => Ok 0
  | S754_finite s m e => Ok (cond_Zopp s (Z.shiftl (Z.pos m) e))
  | S754_infinity _ => Raise OverflowError
  | S754_nan => Raise ValueError
  end.

(** The number a finite float stands for. *)
Definition value (x : float) : Q :=
  match x with
  | S754_finite s m e =>
      if 0 <=? e then inject_Z (cond_Zopp s (Z.pos m) * 2 ^ e)
      else Qmake (cond_Zopp s (Z.pos m)) (Pos.pow 2 (Z.to_pos (- e)))
  | _ => 0%Q
  end.

(** A float without a minus sign. *)
Definition nonneg (x : float) : Prop :=
  match x with
  | S754_zero _ | S754_nan => True
  | S754_infinity s | S754_finite s _ _ => s = false
  end.

Section Dataset.
Context {Elem Fn : Type}.

Definition _split (self : ref) (fraction : float) (args : list (list string))
  : M (heap Elem Fn) (ref * ref) :=
  let! o := deref self in
  if negb (SFltb zero fraction && SFltb fraction one) then raise AssertionError
  else
    let ds := _dataset o in
    let! product := lift (int_mul_float (_size o) fraction) in
    let! train_size := lift (int product) in
    let! trainset := new (__class__ o) (Take train_size ds) train_size args in
    let test_size := _size o - train_size in
    let! testset := new (__class__ o) (Skip train_size ds) test_size args in
    ret (trainset, testset).

Definition DataLoader_split (self : ref) (fraction : float)
  : M (heap Elem Fn) (ref * ref) :=
  _split self fraction [].

Definition ClassificationDataLoader_split (self : ref) (fraction : float)
  : M (heap Elem Fn) (ref * ref) :=
  let! labels := getattr_index_to_label self in
  _split self fraction [labels].

(** [loader.split(fraction)]: the method of the instance's class. *)
Definition split (self : ref) (fraction : float) : M (heap Elem Fn) (ref * ref) :=
  let! o := deref self in
  match __class__ o with
  | cls_DataLoader => DataLoader_split self fraction
  | cls_ClassificationDataLoader => ClassificationDataLoader_split self fraction
  end.
End Dataset.

End DataUtilFloat.

(** ** app-final.py *)

Module App.

(** *** The label file: lines, UTF-8 and [str.rstrip] *)

Definition newline : ascii := ascii_of_nat 10.
Definition carriage_return : ascii := ascii_of_nat 13.

(** The line reader behind [tf.gfile.GFile] copies the bytes of the file
    into the line it returns, except the carriage returns, which it
    drops wherever they stand. *)
Fixpoint without_cr (text : string) : string :=
  match text with
  | EmptyString => EmptyString
  | String c rest =>
      if Ascii.eqb c carriage_return then without_cr rest
      else String c (without_cr rest)
  end.

(** The pieces of a text that end after each line feed, the last one at the
    end of the text. *)
Fixpoint split_lines (text : string) : list string :=
  match text with
  | EmptyString => []
  | String c rest =>
      if Ascii.eqb c newline then String c EmptyString :: split_lines rest
      else match split_lines rest with
           | [] => [String c EmptyString]
           | line :: lines => String c line :: lines
           end
  end.

(** Iterating over a [GFile] yields [readline()] until it returns the empty
    string: every line runs up to and including its line feed, the last one
    up to the end of the file, without the carriage returns. The lines
    are byte strings here; see [as_str]. *)
Definition readlines (text : string) : list string :=
  split_lines (without_cr text).

(** A [str] of Python 3 is the list of its code points. *)
Abbreviation str := (list N).

Definition ord (c : ascii) : N := N_of_ascii c.

Definition continuation (b : N) : bool := ((128 <=? b) && (b <=? 191))%N.

(** The second byte of a sequence of three or four: the ranges that rule
    out overlong forms, surrogates and code points above [0x10FFFF]. *)
Definition second_of_three (b0 b1 : N) : bool :=
  (if b0 =? 224 then (160 <=? b1) && (b1 <=? 191)
   else if b0 =? 237 then (128 <=? b1) && (b1 <=? 159)
   else continuation b1)%N.

Definition second_of_four (b0 b1 : N) : bool :=
  (if b0 =? 240 then (144 <=? b1) && (b1 <=? 191)
   else if b0 =? 244 then (128 <=? b1) && (b1 <=? 143)
   else continuation b1)%N.

(** [bytes.decode("utf-8")], strict: [None] stands for
    [UnicodeDecodeError]. *)
Fixpoint utf8_decode (s : string) : option str :=
  match s with
  | EmptyString => Some []
  | String c0 s1 =>
      let b0 := ord c0 in
      if (b0 <? 128)%N then cons b0 <$> utf8_decode s1
      else if ((194 <=? b0) && (b0 <=? 223))%N then
        match s1 with
        | String c1 s2 =>
            let b1 := ord c1 in
            if continuation b1
            then cons ((b0 - 192) * 64 + (b1 - 128))%N <$> utf8_decode s2
            else None
        | _ => None
        end
      else if ((224 <=? b0) && (b0 <=? 239))%N then
        match s1 with
        | String c1 (String c2 s3) =>
            let b1 := ord c1 in
            let b2 := ord c2 in
            if second_of_three b0 b1 && continuation b2
            then cons ((b0 - 224) * 4096 + (b1 - 128) * 64 + (b2 - 128))%N
                   <$> utf8_decode s3
            else None
        | _ => None
        end
      else if ((240 <=? b0) && (b0 <=? 244))%N then
        match s1 with
        | String c1 (String c2 (String c3 s4)) =>
            let b1 := ord c1 in
            let b2 := ord c2 in
            let b3 := ord c3 in
            if second_of_four b0 b1 && continuation b2 && continuation b3
            then cons ((b0 - 240) * 262144 + (b1 - 128) * 4096
                       + (b2 - 128) * 64 + (b3 - 128))%N
                   <$> utf8_decode s4
            else None
        | _ => None
        end
      else None
  end.

(** The code points of text: all up to [0x10FFFF] but the surrogates. *)
Definition is_scalar (c : N) : bool :=
  ((c <? 55296) || ((57344 <=? c) && (c <? 1114112)))%N.

(** The UTF-8 form of one code point, and of a [str]: the byte string that
    stands for the [str] wherever the program passes it on. *)
Definition encode_char (c : N) : string :=
  (if c <? 128 then String (ascii_of_N c) ""
   else if c <? 2048 then
     String (ascii_of_N (192 + c / 64))
       (String (ascii_of_N (128 + c mod 64)) "")
   else if c <? 65536 then
     String (ascii_of_N (224 + c / 4096))
       (String (ascii_of_N (128 + (c / 64) mod 64))
          (String (ascii_of_N (128 + c mod 64)) ""))
   else
     String (ascii_of_N (240 + (c / 262144) mod 8))
       (String (ascii_of_N (128 + (c / 4096) mod 64))
          (String (ascii_of_N (128 + (c / 64) mod 64))
             (String (ascii_of_N (128 + c mod 64)) ""))))%N.

Fixpoint utf8_encode (t : str) : string :=
  match t with
  | [] => ""
  | c :: rest => encode_char c ++ utf8_encode rest
  end.

(** What a [GFile] opened in text mode makes of a line under Python 3
    ([compat.as_str_any]): the [str] it decodes to. *)
Definition as_str (line : string) : result str :=
  match utf8_decode line with
  | Some t => Ok t
  | None => Raise UnicodeDecodeError
  end.

(** The code points [str.rstrip()] removes ([str.isspace]): tab to carriage
    return, the four separators [0x1c]-[0x1f], space, [0x85], the no-break
    space [0xa0], and the spaces and separators of the higher planes. *)
Definition isspace (c : N) : bool :=
  (((9 <=? c) && (c <=? 13)) || ((28 <=? c) && (c <=? 32))
   || (c =? 133) || (c =? 160) || (c =? 5760)
   || ((8192 <=? c) && (c <=? 8202))
   || (c =? 8232) || (c =? 8233) || (c =? 8239) || (c =? 8287)
   || (c =? 12288))%N.

Fixpoint rstrip (s : str) : str :=
  match s with
  | [] => []
  | c :: rest =>
      match rstrip rest with
      | [] => if isspace c then [] else [c]
      | kept => c :: kept
      end
  end.

(** [line.rstrip()] for a line as the file yields it. *)
Definition label_of_line (line : string) : result str :=
  rbind (as_str line) (λ t, Ok (rstrip t)).

(** [[line.rstrip() for line in lines]] *)
Fixpoint label_texts (lines : list string) : result (list str) :=
  match lines with
  | [] => Ok []
  | line :: rest =>
      rbind (label_of_line line) (λ label,
      rbind (label_texts rest) (λ labels, Ok (label :: labels)))
  end.

(** [[line.rstrip() for line in tf.gfile.GFile("retrained_labels.txt")]],
    given the bytes of the file; every label in its UTF-8 form. *)
Definition label_lines (text : string) : result (list string) :=
  rbind (label_texts (readlines text)) (λ labels, Ok (map utf8_encode labels)).

(** [c in s] *)
Fixpoint contains (c : ascii) (s : string) : bool :=
  match s with
  | EmptyString => false
  | String d rest => Ascii.eqb d c || contains c rest
  end.

(** [s.endswith(c)] *)
Fixpoint endswith (c : ascii) (s : string) : bool :=
  match s with
  | EmptyString => false
  | String d EmptyString => Ascii.eqb d c
  | String _ rest => endswith c rest
  end.

(** Every code point of [s] is white space. *)
Definition all_space (s : str) : bool := forallb isspace s.

(** [s] does not end in white space. *)
Fixpoint no_trailing_space (s : str) : bool :=
  match s with
  | [] => true
  | [c] => negb (isspace c)
  | _ :: rest => no_trailing_space rest
  end.

(** *** Paths *)

Definition startswith_slash (s : string) : bool :=
  match s with
  | String c _ => Ascii.eqb c "/"
  | EmptyString => false
  end.

Definition endswith_slash (s : string) : bool := endswith "/" s.

(** [os.path.join(a, b)] on POSIX. *)
Definition os_path_join (a b : string) : string :=
  if startswith_slash b then b
  else if String.eqb a "" || endswith_slash a then a ++ b
  else a ++ "/" ++ b.

(** *** Requests and responses *)

(** [werkzeug.FileStorage] *)
Record FileStorage : Type := {
  filename : string;
  stream : string
}.

Record Request : Type := {
  method : string;
  path : string;
  request_files : list (string * FileStorage)
}.

(** [request.files.getlist(key)] *)
Definition getlist (key : string) (req : Request) : list FileStorage :=
  map snd (List.filter (λ kv, String.eqb (fst kv) key) (request_files req)).

Inductive template_value : Type :=
| StrList (l : list string)
| NumList (l : list Q).

Inductive Response : Type :=
| render_template (template_name : string) (context : list (string * template_value))
| NotFound
| MethodNotAllowed.

(** *** The operating system *)

(** The four calls the handler makes on the file system, each a
    computation over the state of the machine that returns or raises:
    [os.path.isdir(path)], [os.mkdir(path)], [file.save(destination)] and
    [tf.gfile.GFile(path).read()], the bytes of a file. The handler is
    written against this interface; what a path names is up to the
    instance. *)
Record Platform : Type := {
  state : Type;
  path_isdir : string → M state bool;
  mkdir : string → M state unit;
  file_save : FileStorage → string → M state unit;
  file_read : string → M state string
}.

(** A first instance: regular files and directories, each known by the
    very string it is opened with. Nothing is resolved (no [..], no
    working directory, no links), a file can be written whether or not
    its directory exists, and permissions are left out. *)
Record world : Type := {
  files : gmap string string;
  dirs : gset string
}.

Definition os_path_isdir (path : string) : M world bool :=
  gets (λ w, bool_decide (path ∈ dirs w)).

Definition os_mkdir (path : string) : M world unit :=
  λ w, if bool_decide (path ∈ dirs w) || bool_decide (is_Some (files w !! path))
       then (inl (FileExistsError path), w)
       else (inr tt, {| files := files w; dirs := {[path]} ∪ dirs w |}).

(** Opening a path for writing creates or truncates the file; a path that
    names a directory cannot be opened. *)
Definition write_file (path data : string) : M world unit :=
  λ w, if endswith_slash path || bool_decide (path ∈ dirs w)
       then (inl (IsADirectoryError path), w)
       else (inr tt, {| files := <[path := data]> (files w); dirs := dirs w |}).

Definition gfile_read (path : string) : M world string :=
  λ w, match files w !! path with
       | Some data => (inr data, w)
       | None => (inl (NotFoundError path), w)
       end.

Definition save (file : FileStorage) (destination : string) : M world unit :=
  write_file destination (stream file).

Definition flat : Platform :=
  {| state := world;
     path_isdir := os_path_isdir;
     mkdir := os_mkdir;
     file_save := save;
     file_read := gfile_read |}.

(** *** Classification of the prediction vector *)

(** [a[-k:]] for a list [a] and [k >= 0]; [a[-0:]] is all of [a]. *)
Definition slice_last {A} (k : nat) (a : list A) : list A :=
  if (k =? 0)%nat then a else skipn (length a - k) a.

(** [a[i]] for an index [i >= 0] *)
Definition getitem {A} (a : list A) (i : nat) : result A :=
  match a !! i with
  | Some x => Ok x
  | None => Raise IndexError
  end.

(** The loop over [top_k] of [upload]. *)
Fixpoint collect (label_lines : list string) (prediction : list Q)
    (top_k : list nat) (name : list string) (scores : list Q)
  : result (list string * list Q) :=
  match top_k with
  | [] => Ok (name, scores)
  | node_id :: rest =>
      rbind (getitem label_lines node_id) (λ human_string,
      rbind (getitem prediction node_id) (λ score,
      let score := (score * 100)%Q in
      if Qltb 20 score
      then collect label_lines prediction rest
             (name ++ [human_string]) (scores ++ [score])
      else collect label_lines prediction rest name scores))
  end.

(** What [ndarray.argsort] promises of its result for the vector [p]: the
    indices of [p], each once, in ascending order of the values. *)
Fixpoint ascending (values : list Q) : bool :=
  match values with
  | x :: (y :: _) as rest => Qle_bool x y && ascending rest
  | _ => true
  end.

Definition is_argsort (p : list Q) (indices : list nat) : Prop :=
  indices ≡ₚ seq 0 (length p) ∧
  ascending (map (λ i, nth i p 0%Q) indices) = true.

Section Handlers.
(** The machine the application runs on. *)
Variable sys : Platform.
(** [os.path.dirname(os.path.abspath(__file__))] *)
Variable APP_ROOT : string.
(** [ndarray.argsort()] of a vector *)
Variable argsort : list Q → list nat.
(** Lines 37-44 of the handler: the outcome of parsing the graph file,
    importing it and running the tensor [final_result:0] on the bytes of
    the image. *)
Variable session_run : string → string → result (list (list Q)).

Definition top_k (prediction : list Q) : list nat :=
  rev (slice_last (length prediction) (argsort prediction)).

Definition classify (label_lines : list string) (prediction : list Q)
  : result (list string * list Q) :=
  collect label_lines prediction (top_k prediction) [] [].

Definition target : string := os_path_join APP_ROOT "images/".

Definition destination_of (file : FileStorage) : string :=
  String.concat "/" [target; filename file].

(** The loop over the uploaded files; [destination] is [None] as long as
    the variable is unbound. *)
Fixpoint save_files (uploaded : list FileStorage) (destination : option string)
  : M (state sys) (option string) :=
  match uploaded with
  | [] => ret destination
  | file :: rest =>
      let destination := destination_of file in
      run! file_save sys file destination in
      save_files rest (Some destination)
  end.

(** The states the loop goes through when every [save] returns: each file
    is saved at its destination, one after the other. *)
Fixpoint saved_in_order (uploaded : list FileStorage) (w w' : state sys) : Prop :=
  match uploaded with
  | [] => w' = w
  | file :: rest =>
      ∃ w1, file_save sys file (destination_of file) w = (inr tt, w1) ∧
            saved_in_order rest w1 w'
  end.

(** The view of [/]. *)
Definition index (req : Request) : M (state sys) Response :=
  ret (render_template "upload.html" []).

(** The view of [/upload]. The [print] calls, which only write to the
    console, are left out. *)
Definition upload (req : Request) : M (state sys) Response :=
  let! isdir := path_isdir sys target in
  run! (if negb isdir then mkdir sys target else ret tt) in
  let! destination := save_files (getlist "file" req) None in
  let! img := match destination with
              | Some d => ret d
              | None => raise (UnboundLocalError "destination")
              end in
  let! image_data := file_read sys img in
  let! labels_text := file_read sys "retrained_labels.txt" in
  let! label_lines := lift (label_lines labels_text) in
  let! graph := file_read sys "retrained_graph.pb" in
  let! predictions := lift (session_run graph image_data) in
  let! prediction := lift (getitem predictions 0) in
  let! found := lift (classify label_lines prediction) in
  ret (render_template "complete.html"
         [("name", StrList (fst found)); ("scores", NumList (snd found))]).

(** The routes registered by the [@app.route] decorators. *)
Inductive view : Type := view_index | view_upload.

Record Rule : Type := {
  rule : string;
  methods : list string;
  endpoint : view
}.

Definition url_map : list Rule :=
  [ {| rule := "/"; methods := ["GET"]; endpoint := view_index |};
    {| rule := "/upload"; methods := ["POST"]; endpoint := view_upload |} ].

Definition view_function (v : view) : Request → M (state sys) Response :=
  match v with
  | view_index => index
  | view_upload => upload
  end.

(** Dispatch of a request among the rules of the two views, by the exact
    path and a listed method: a known path with another method is
    answered 405, an unknown path 404. An exception of the view function
    is not caught here. The rule and the methods that Flask adds of its
    own, listed in [app_url_map], are not dispatched. *)
Definition dispatch_request (req : Request) : M (state sys) Response :=
  match List.filter (λ r, String.eqb (rule r) (path req)) url_map with
  | [] => ret NotFound
  | matching =>
      match List.filter (λ r, existsb (String.eqb (method req)) (methods r))
              matching with
      | [] => ret MethodNotAllowed
      | r :: _ => view_function (endpoint r) req
      end
  end.
End Handlers.

(** *** What the application object registers *)




End App.

(** ** A file system with directories *)

Module Posix.
Import App.

(** A second instance of [App.Platform]: a tree of directories and regular
    files in which a path is resolved component by component from the
    root or from the working directory. A node is known by the list of
    names that leads to it from the root, and the root is a directory.
    Links, permissions and limits on names are left out. *)
Record fs : Type := {
  cwd : list string;
  directories : gset (list string);
  regular : gmap (list string) string
}.

(** [path.split("/")] *)
Fixpoint split_slash (path : string) : list string :=
  match path with
  | EmptyString => [EmptyString]
  | String c rest =>
      if Ascii.eqb c "/" then EmptyString :: split_slash rest
      else match split_slash rest with
           | [] => [String c EmptyString]
           | name :: names => String c name :: names
           end
  end.

Inductive errno : Type := ENOENT | ENOTDIR.

Definition is_dir (t : fs) (node : list string) : bool :=
  bool_decide (node = []) || bool_decide (node ∈ directories t).

Definition is_file (t : fs) (node : list string) : bool :=
  negb (is_dir t node) && bool_decide (is_Some (regular t !! node)).

(** One component of a path, looked up in the node [cur], which has to be
    a directory. The node of a new name is returned whether or not it
    exists. *)
Definition step (t : fs) (cur : list string) (name : string)
  : errno + list string :=
  if negb (is_dir t cur) then inl (if is_file t cur then ENOTDIR else ENOENT)
  else if String.eqb name "" || String.eqb name "." then inr cur
  else if String.eqb name ".." then inr (removelast cur)
  else inr (cur ++ [name]).

Fixpoint walk (t : fs) (cur : list string) (names : list string)
  : errno + list string :=
  match names with
  | [] => inr cur
  | name :: rest =>
      match step t cur name with
      | inl e => inl e
      | inr next => walk t next rest
      end
  end.

Definition start (t : fs) (path : string) : list string :=
  if startswith_slash path then [] else cwd t.

Definition resolve (t : fs) (path : string) : errno + list string :=
  if String.eqb path "" then inl ENOENT
  else walk t (start t path) (split_slash path).

(** The names of a path without the empty ones at its end, which the
    slashes at the end of the path leave. *)
Fixpoint without_trailing_slashes (names : list string) : list string :=
  match names with
  | [] => []
  | name :: rest =>
      match without_trailing_slashes rest with
      | [] => if String.eqb name "" then [] else [name]
      | kept => name :: kept
      end
  end.

(** The node a path names when it is about to be created: slashes at its
    end do not count. *)
Definition resolve_new (t : fs) (path : string) : errno + list string :=
  if String.eqb path "" then inl ENOENT
  else walk t (start t path) (without_trailing_slashes (split_slash path)).

Definition os_error (e : errno) (path : string) : exn :=
  match e with
  | ENOENT => FileNotFoundError path
  | ENOTDIR => NotADirectoryError path
  end.

(** [os.path.isdir(path)] *)
Definition isdir (path : string) : M fs bool :=
  gets (λ t, match resolve t path with
             | inr node => is_dir t node
             | inl _ => false
             end).

(** [os.mkdir(path)] *)
Definition os_mkdir (path : string) : M fs unit :=
  λ t, match resolve_new t path with
       | inl e => (inl (os_error e path), t)
       | inr node =>
           if is_dir t node || is_file t node
           then (inl (FileExistsError path), t)
           else (inr tt, {| cwd := cwd t;
                            directories := {[node]} ∪ directories t;
                            regular := regular t |})
       end.

(** [open(path, "wb")] followed by the writing of [data]. *)
Definition write_file (path data : string) : M fs unit :=
  λ t, if endswith_slash path
       then match resolve_new t path with
            | inl e => (inl (os_error e path), t)
            | inr node =>
                if is_file t node then (inl (NotADirectoryError path), t)
                else (inl (IsADirectoryError path), t)
            end
       else match resolve t path with
            | inl e => (inl (os_error e path), t)
            | inr node =>
                if is_dir t node then (inl (IsADirectoryError path), t)
                else (inr tt, {| cwd := cwd t;
                                 directories := directories t;
                                 regular := <[node := data]> (regular t) |})
            end.

(** [file.save(destination)] *)
Definition save (file : FileStorage) (destination : string) : M fs unit :=
  write_file destination (stream file).

(** [tf.gfile.GFile(path).read()] *)
Definition gfile_read (path : string) : M fs string :=
  λ t, match resolve t path with
       | inl ENOENT => (inl (NotFoundError path), t)
       | inl ENOTDIR => (inl (ExternalError "FailedPreconditionError"), t)
       | inr node =>
           if is_dir t node
           then (inl (ExternalError "FailedPreconditionError"), t)
           else match regular t !! node with
                | Some data => (inr data, t)
                | None => (inl (NotFoundError path), t)
                end
       end.

Definition posix : Platform :=
  {| state := fs;
     path_isdir := isdir;
     mkdir := os_mkdir;
     file_save := save;
     file_read := gfile_read |}.

End Posix.

(** ** Concrete instances, used to run the definitions *)

Module Examples.
Import ModelSpec.

(** Every imported spec is a function that builds an instance. *)
Definition example_env : imports :=
  {| efficientnet_lite0_spec := Function "efficientnet_lite0_spec";
     efficientnet_lite1_spec := Function "efficientnet_lite1_spec";
     efficientnet_lite2_spec := Function "efficientnet_lite2_spec";
     efficientnet_lite3_spec := Function "efficientnet_lite3_spec";
     efficientnet_lite4_spec := Function "efficientnet_lite4_spec";
     mobilenet_v2_spec := Function "mobilenet_v2_spec";
     resnet_50_spec := Function "resnet_50_spec";
     average_word_vec_spec := Function "average_word_vec_spec";
     bert_spec := Function "bert_spec";
     bert_classifier_spec := Function "bert_classifier_spec";
     bert_qa_spec := Function "bert_qa_spec";
     mobilebert_classifier_spec := Function "mobilebert_classifier_spec";
     mobilebert_qa_spec := Function "mobilebert_qa_spec";
     mobilebert_qa_squad_spec := Function "mobilebert_qa_squad_spec" |}.

(** [def default_name(): return "bert"] next to the spec functions and
    classes, which return an instance. *)
Definition example_call (v : value) : result value :=
  match v with
  | Function "default_name" => Ok (Str "bert")
  | Function name | Class name => Ok (Object name)
  | _ => Raise TypeError
  end.

(** An [argsort] by insertion: the indices of [p] in ascending order of
    their values. *)
Fixpoint insert_index (p : list Q) (i : nat) (sorted : list nat) : list nat :=
  match sorted with
  | [] => [i]
  | j :: rest =>
      if Qle_bool (nth i p 0%Q) (nth j p 0%Q) then i :: j :: rest
      else j :: insert_index p i rest
  end.

Definition example_argsort (p : list Q) : list nat :=
  foldr (insert_index p) [] (seq 0 (length p)).

(** A graph with three classes that answers every image alike. *)
Definition example_session_run (graph image_data : string)
  : result (list (list Q)) :=
  Ok [[ (15 # 100); (60 # 100); (25 # 100) ]%Q].

Definition example_root : string := "/srv/app".

Definition example_world : App.world :=
  {| App.files := {[ "retrained_labels.txt" := "healthy
rust
scab
";
                     "retrained_graph.pb" := "graph" ]};
     App.dirs := {[ "/srv/app/images/" ]} |}.


Definition empty_upload : App.Request :=
  {| App.method := "POST"; App.path := "/upload"; App.request_files := [] |}.


(** The application directory [/srv/app] on a machine with directories,
    the application started from it: the images directory, the label file
    and the graph file are in place. *)
Definition example_fs : Posix.fs :=
  {| Posix.cwd := ["srv"; "app"];
     Posix.directories := {[ ["srv"]; ["srv"; "app"]; ["srv"; "app"; "images"] ]};
     Posix.regular := {[ ["srv"; "app"; "retrained_labels.txt"] := "healthy
rust
scab
";
                         ["srv"; "app"; "retrained_graph.pb"] := "graph" ]} |}.

(** The same, before the label file has been put in place. *)
Definition fs_without_labels : Posix.fs :=
  {| Posix.cwd := ["srv"; "app"];
     Posix.directories := {[ ["srv"]; ["srv"; "app"]; ["srv"; "app"; "images"] ]};
     Posix.regular := {[ ["srv"; "app"; "retrained_graph.pb"] := "graph" ]} |}.



(** An upload of two files, the first of which names the label file as
    seen from the images directory. *)
Definition upload_with_labels : App.Request :=
  {| App.method := "POST"; App.path := "/upload";
     App.request_files :=
       [("file", {| App.filename := "../retrained_labels.txt";
                    App.stream := "healthy
rust
scab
" |});
        ("file", {| App.filename := "leaf.jpg"; App.stream := "jpeg" |})] |}.

(** A label file of one line: [c], carriage return, [d], line feed. *)
Definition text_with_cr : string :=
  String "c" (String App.carriage_return (String "d" (String App.newline ""))).

(** The floats written [0.7] and [0.5] in Python. *)
Definition seven_tenths : DataUtilFloat.float :=
  S754_finite false 6305039478318694 (-53).

Definition one_half : DataUtilFloat.float :=
  S754_finite false 4503599627370496 (-53).

(** A loader of size [-3], which the constructor accepts. *)
Definition negative_heap : DataUtil.heap nat nat :=
  [DataUtil.DataLoader (DataUtil.Source []) (-3)].

(** A loader over ten elements. *)
Definition heap_of_ten : DataUtil.heap nat nat :=
  [DataUtil.DataLoader (DataUtil.Source (seq 0 10)) 10].

(** A loader over five elements and a classification loader over four. *)
Definition example_heap : DataUtil.heap nat nat :=
  [DataUtil.DataLoader (DataUtil.Source [10; 11; 12; 13; 14]%nat) 5;
   DataUtil.ClassificationDataLoader (DataUtil.Source [20; 21; 22; 23]%nat) 4
     ["healthy"; "rust"; "scab"]].
End Examples.

(** ** Sums *)

Module Sums.
(** [sum(values)] *)
Definition Qsum (values : list Q) : Q := foldr Qplus 0%Q values.
End Sums.

(** * Properties *)

Lemma Qltb_lt (x y : Q) : Qltb x y = true ↔ (x < y)%Q.
Proof.
  unfold Qltb. rewrite Qlt_alt. destruct (x ?= y)%Q; split; congruence.
Qed.

(** ** The model-spec registry *)

Module ModelSpecFacts.
Import ModelSpec Examples.

Section Registry.
Variable env : imports.
Variable call : value → result value.

Lemma MODEL_SPECS_dom :
  dom (MODEL_SPECS env) = list_to_set (fst <$> MODEL_SPECS_items env).
Proof. unfold MODEL_SPECS. apply dom_list_to_map_L. Qed.

Lemma get_str_lookup s :
  get env call (Str s) =
    match MODEL_SPECS env !! s with
    | Some v => if isclass v || isfunction v then call v else Ok v
    | None => Raise (KeyError s)
    end.
Proof. unfold get, MODEL_SPECS_getitem. by destruct (MODEL_SPECS env !! s). Qed.

Lemma get_plain x :
  isinstance_str x = false → isclass x = false → isfunction x = false →
  get env call x = Ok x.
Proof. by destruct x. Qed.
End Registry.

(** C4, as amended. [get] on a string is a lookup in [MODEL_SPECS]: a key
    yields its entry, called without arguments first when the entry is a
    class or a function; any other string raises [KeyError]. The keys of
    [MODEL_SPECS] are the names of the three lists of supported models
    together with ["bert"]. *)
Theorem get_registry_lookup (env : imports) (call : value → result value) :
  (∀ s v, MODEL_SPECS env !! s = Some v →
     get env call (Str s) = if isclass v || isfunction v then call v else Ok v) ∧
  (∀ s, MODEL_SPECS env !! s = None →
     get env call (Str s) = Raise (KeyError s)) ∧
  dom (MODEL_SPECS env) =
    list_to_set (IMAGE_CLASSIFICATION_MODELS ++ TEXT_CLASSIFICATION_MODELS
                 ++ QUESTION_ANSWERING_MODELS) ∪ {["bert"]}.
Proof.
  split; [|split].
  - intros s v Hs. by rewrite get_str_lookup, Hs.
  - intros s Hs. by rewrite get_str_lookup, Hs.
  - rewrite MODEL_SPECS_dom. cbn [fmap list_fmap MODEL_SPECS_items fst].
    unfold IMAGE_CLASSIFICATION_MODELS, TEXT_CLASSIFICATION_MODELS,
      QUESTION_ANSWERING_MODELS.
    cbn [app list_to_set foldr]. set_solver.
Qed.

Lemma get_registry_lookup_witness :
  get example_env example_call (Str "bert") = Ok (Object "bert_spec") ∧
  get example_env example_call (Str "vgg16") = Raise (KeyError "vgg16").
Proof.
  destruct (get_registry_lookup example_env example_call) as (Hkey & Hmiss & _).
  split.
  - apply (Hkey "bert" (Function "bert_spec")). reflexivity.
  - apply (Hmiss "vgg16"). reflexivity.
Defined.

(** C4, as stated, fails on the key set: ["bert"] is a key of [MODEL_SPECS]
    and belongs to none of the three lists. *)
Lemma MODEL_SPECS_keys_not_the_union :
  dom (MODEL_SPECS example_env) ≠
    list_to_set (IMAGE_CLASSIFICATION_MODELS ++ TEXT_CLASSIFICATION_MODELS
                 ++ QUESTION_ANSWERING_MODELS).
Proof.
  intros Heq.
  assert (Hin : "bert" ∈ dom (MODEL_SPECS example_env)).
  { apply elem_of_dom. eexists. reflexivity. }
  rewrite Heq in Hin. apply elem_of_list_to_set in Hin.
  apply list_elem_of_In in Hin. cbn in Hin.
  repeat (destruct Hin as [Hin|Hin]; [discriminate Hin|]). exact Hin.
Qed.

(** C10, as amended. [get] returns unchanged every value that is neither a
    string, a class nor a function; and for every non-string [x] whose call
    result is neither a string, a class nor a function, applying [get] to
    the result of [get x] changes nothing: [get(get(x)) = get(x)]. *)
Theorem get_idempotent (env : imports) (call : value → result value) :
  (∀ x, isinstance_str x = false → isclass x = false → isfunction x = false →
     get env call x = Ok x) ∧
  (∀ x, isinstance_str x = false →
     (∀ y, get env call x = Ok y →
        isinstance_str y = false ∧ isclass y = false ∧ isfunction y = false) →
     rbind (get env call x) (get env call) = get env call x).
Proof.
  split.
  - apply get_plain.
  - intros x _ Hres. destruct (get env call x) as [e|y] eqn:Hx; [done|].
    destruct (Hres y eq_refl) as (Hs & Hc & Hf). cbn.
    by apply get_plain.
Qed.

Lemma get_idempotent_witness :
  get example_env example_call (Object "my_spec") = Ok (Object "my_spec") ∧
  rbind (get example_env example_call (Class "ImageModelSpec"))
        (get example_env example_call)
    = get example_env example_call (Class "ImageModelSpec").
Proof.
  destruct (get_idempotent example_env example_call) as [Hplain Hidem].
  split.
  - apply Hplain; reflexivity.
  - apply Hidem; [reflexivity|].
    intros y Hy. injection Hy as <-. repeat split.
Defined.

(** C10, as stated, fails when the call returns a string: the function
    [default_name] is not a string, its call result ["bert"] is neither a
    class nor a function, and [get] maps that result to another value. *)
Lemma get_not_idempotent_on_a_string_result :
  isinstance_str (Function "default_name") = false ∧
  example_call (Function "default_name") = Ok (Str "bert") ∧
  get example_env example_call (Function "default_name") = Ok (Str "bert") ∧
  rbind (get example_env example_call (Function "default_name"))
        (get example_env example_call)
    = Ok (Object "bert_spec") ∧
  rbind (get example_env example_call (Function "default_name"))
        (get example_env example_call)
    ≠ get example_env example_call (Function "default_name").
Proof. repeat split. discriminate. Qed.

End ModelSpecFacts.

(** ** The data loader *)

Module DataUtilFacts.
Import DataUtil Examples.


(** [int] rounds towards zero, so it is the floor exactly on the numbers
    that are not negative. *)
Lemma int_floor (x : Q) : (0 <= x)%Q → int x = Qfloor x.
Proof.
  destruct x as [n d]. unfold Qle, int, Qfloor. cbn. intros Hn.
  apply Z.quot_div_nonneg; lia.
Qed.

Lemma int_nonneg (x : Q) : (0 <= x)%Q → 0 ≤ int x.
Proof.
  destruct x as [n d]. unfold Qle, int. cbn. intros Hn.
  apply Z.quot_pos; lia.
Qed.


Section Loader.
Context {Elem Fn : Type}.
Implicit Types (h : heap Elem Fn) (o : object Elem Fn) (ds : dataset Elem Fn).

Lemma deref_lookup h self o : h !! self = Some o → deref self h = (inr o, h).
Proof. unfold deref. by intros ->. Qed.

Lemma new_sibling h o ds size :
  new (__class__ o) ds size
      (match index_to_label o with Some labels => [labels] | None => [] end) h
  = (inr (length h), h ++ [sibling o ds size]).
Proof. by destruct o. Qed.

(** What [_split] does on the arguments [split] passes to it. *)
Lemma _split_run h self o fraction :
  h !! self = Some o →
  _split self fraction
    (match index_to_label o with Some labels => [labels] | None => [] end) h
  = if Qltb 0 fraction && Qltb fraction 1
    then (inr (length h, S (length h)),
          h ++ [sibling o (Take (int (inject_Z (_size o) * fraction)) (_dataset o))
                          (int (inject_Z (_size o) * fraction));
                sibling o (Skip (int (inject_Z (_size o) * fraction)) (_dataset o))
                          (_size o - int (inject_Z (_size o) * fraction))])
    else (inl AssertionError, h).
Proof.
  intros Hself. unfold _split, bind at 1. rewrite (deref_lookup _ _ _ Hself).
  destruct (Qltb 0 fraction && Qltb fraction 1); cbn [negb]; [|done].
  unfold bind. rewrite !new_sibling. unfold ret.
  rewrite length_app. cbn [length]. rewrite Nat.add_1_r.
  by rewrite <- app_assoc.
Qed.

Lemma split_run h self o fraction :
  h !! self = Some o →
  split self fraction h
  = if Qltb 0 fraction && Qltb fraction 1
    then (inr (length h, S (length h)),
          h ++ [sibling o (Take (int (inject_Z (_size o) * fraction)) (_dataset o))
                          (int (inject_Z (_size o) * fraction));
                sibling o (Skip (int (inject_Z (_size o) * fraction)) (_dataset o))
                          (_size o - int (inject_Z (_size o) * fraction))])
    else (inl AssertionError, h).
Proof.
  intros Hself. rewrite <- (_split_run _ _ _ _ Hself).
  unfold split, bind at 1. rewrite (deref_lookup _ _ _ Hself).
  destruct o; cbn [__class__ index_to_label].
  - reflexivity.
  - unfold ClassificationDataLoader_split, getattr_index_to_label, bind at 1.
    unfold bind at 1. rewrite (deref_lookup _ _ _ Hself).
    reflexivity.
Qed.

Lemma elements_take_skip ds (l : list Elem) (count : Z) :
  0 ≤ count → elements_of ds = Some l →
  elements_of (Take count ds) = Some (firstn (Z.to_nat count) l) ∧
  elements_of (Skip count ds) = Some (skipn (Z.to_nat count) l).
Proof.
  intros Hc Hl. cbn. rewrite Hl. cbn.
  destruct (count <? 0) eqn:Hneg; [lia|done].
Qed.

Lemma transformations_apply ds (calls : list (transformation Fn)) :
  transformations (foldl apply_call ds calls) = transformations ds ++ calls.
Proof.
  revert ds. induction calls as [|t calls IH]; intros ds; cbn [foldl].
  - by rewrite app_nil_r.
  - rewrite IH. destruct t; cbn [apply_call transformations];
      by rewrite <- app_assoc.
Qed.

Lemma gen_dataset_run h self o batch_size is_training shuffle ctx preprocess :
  h !! self = Some o →
  gen_dataset self batch_size is_training shuffle ctx preprocess h
  = (inr (foldl apply_call (_dataset o)
            (described_calls (_size o) batch_size is_training shuffle ctx preprocess)),
     h).
Proof.
  intros Hself. unfold gen_dataset, bind. rewrite (deref_lookup _ _ _ Hself).
  unfold ret, described_calls, _shard.
  destruct ctx as [c|]; [destruct (1 <? num_input_pipelines c)|];
    destruct preprocess, is_training, shuffle; reflexivity.
Qed.

Lemma described_calls_in_order size batch_size is_training shuffle ctx
    (preprocess : option Fn) :
  StronglySorted lt
    (stage <$> described_calls size batch_size is_training shuffle ctx preprocess).
Proof.
  unfold described_calls.
  destruct ctx as [c|]; [destruct (1 <? num_input_pipelines c)|];
    destruct preprocess, is_training, shuffle; cbn;
    repeat (constructor; [|repeat (constructor; [lia|]); constructor]);
    constructor.
Qed.

(** C6. [gen_dataset] returns the stored dataset with the calls of the
    description applied in their order: shard only for a context with
    more than one input pipeline, map only for a given preprocess
    function, shuffle only when training with shuffle on, with buffer
    [min(size, 3 * batch_size)], repeat only when training, then always
    batch and prefetch. Each call occurs at most once, in the fixed
    order. *)
Theorem gen_dataset_calls h self o batch_size is_training shuffle ctx preprocess :
  h !! self = Some o →
  ∃ ds,
    gen_dataset self batch_size is_training shuffle ctx preprocess h = (inr ds, h) ∧
    ds = foldl apply_call (_dataset o)
           (described_calls (_size o) batch_size is_training shuffle ctx preprocess) ∧
    transformations ds =
      transformations (_dataset o)
      ++ described_calls (_size o) batch_size is_training shuffle ctx preprocess ∧
    StronglySorted lt
      (stage <$> described_calls (_size o) batch_size is_training shuffle ctx
                   preprocess).
Proof.
  intros Hself. eexists. split; [by apply gen_dataset_run|].
  split; [reflexivity|]. split.
  - apply transformations_apply.
  - apply described_calls_in_order.
Qed.

(** No computation built from [deref], [alloc] and [new] changes an
    object that is already in the heap: the heap only grows. *)
Lemma prefix_ret {A} (a : A) h : h `prefix_of` (ret a h).2.
Proof. done. Qed.

Lemma prefix_raise {A} e h : h `prefix_of` (raise (A := A) e h).2.
Proof. done. Qed.

Lemma prefix_deref r h : h `prefix_of` (deref r h).2.
Proof. unfold deref. by destruct (h !! r). Qed.

Lemma prefix_new cls ds size args h : h `prefix_of` (new cls ds size args h).2.
Proof.
  unfold new, alloc, raise.
  destruct cls, args as [|labels [|more args]]; cbn;
    first [done | by apply prefix_app_r].
Qed.

Lemma prefix_bind {A B} (m : M (heap Elem Fn) A) (k : A → M (heap Elem Fn) B) :
  (∀ h, h `prefix_of` (m h).2) → (∀ a h, h `prefix_of` (k a h).2) →
  ∀ h, h `prefix_of` (bind m k h).2.
Proof.
  intros Hm Hk h. unfold bind. specialize (Hm h).
  destruct (m h) as [[e|a] h1]; [done|].
  etrans; [exact Hm|]. apply Hk.
Qed.

Lemma prefix__len__ self h : h `prefix_of` (__len__ self h).2.
Proof.
  apply prefix_bind; [apply prefix_deref|]. intros; apply prefix_ret.
Qed.

Lemma prefix_len maxsize self h : h `prefix_of` (len maxsize self h).2.
Proof.
  apply prefix_bind; [apply prefix__len__|]. intros n h1.
  destruct (n <? 0); [apply prefix_raise|].
  destruct (maxsize <? n); [apply prefix_raise|apply prefix_ret].
Qed.

Lemma prefix_gen_dataset self batch_size is_training shuffle ctx preprocess h :
  h `prefix_of`
    (gen_dataset self batch_size is_training shuffle ctx preprocess h).2.
Proof.
  apply prefix_bind; [apply prefix_deref|]. intros; apply prefix_ret.
Qed.

Lemma prefix__split self fraction args h :
  h `prefix_of` (_split self fraction args h).2.
Proof.
  apply prefix_bind; [apply prefix_deref|]. intros o h1.
  destruct (negb _); [apply prefix_raise|].
  apply prefix_bind; [apply prefix_new|]. intros train h2.
  apply prefix_bind; [apply prefix_new|]. intros; apply prefix_ret.
Qed.

Lemma prefix_getattr self h : h `prefix_of` (getattr_index_to_label self h).2.
Proof.
  apply prefix_bind; [apply prefix_deref|]. intros o h1.
  destruct (index_to_label o); [apply prefix_ret|apply prefix_raise].
Qed.

Lemma prefix_num_classes self h : h `prefix_of` (num_classes self h).2.
Proof.
  apply prefix_bind; [apply prefix_getattr|]. intros; apply prefix_ret.
Qed.

Lemma prefix_split self fraction h : h `prefix_of` (split self fraction h).2.
Proof.
  apply prefix_bind; [apply prefix_deref|]. intros o h1.
  destruct (__class__ o).
  - apply prefix__split.
  - apply prefix_bind; [apply prefix_getattr|]. intros; apply prefix__split.
Qed.

Lemma prefix_lookup h h' (r : ref) o :
  h `prefix_of` h' → h !! r = Some o → h' !! r = Some o.
Proof. intros [k ->] Hr. by apply lookup_app_l_Some. Qed.

Lemma foldl_apply_longer ds (calls : list (transformation Fn)) :
  calls ≠ [] → foldl apply_call ds calls ≠ ds.
Proof.
  intros Hcalls Heq.
  pose proof (transformations_apply ds calls) as Hlen.
  rewrite Heq in Hlen. apply (f_equal length) in Hlen.
  rewrite length_app in Hlen. destruct calls; [done|]. cbn in Hlen. lia.
Qed.

Lemma len_run maxsize h self o :
  h !! self = Some o →
  len maxsize self h =
    if _size o <? 0 then (inl ValueError, h)
    else if maxsize <? _size o then (inl OverflowError, h)
    else (inr (_size o), h).
Proof.
  intros Hself. unfold len, __len__, bind.
  rewrite (deref_lookup _ _ _ Hself). unfold ret.
  destruct (_size o <? 0); [done|]. by destruct (maxsize <? _size o).
Qed.

(** C8, as amended. The method [__len__] of a loader built from a
    dataset and a size returns that size, and [len(loader)] is that size
    whenever it is not negative and at most [sys.maxsize]. No method
    changes an instance that exists: after [__len__], [len],
    [gen_dataset], [split], [_split] or [num_classes], every reference
    still holds the object it held before. The loaders [split] returns
    are new instances, and the dataset [gen_dataset] returns is not the
    stored one. *)
Theorem loader_is_passive h (sys_maxsize : Z) :
  (∀ ds n,
     bind (new cls_DataLoader ds n []) __len__ h
     = (inr n, h ++ [DataLoader ds n])) ∧
  (∀ ds n labels,
     bind (new cls_ClassificationDataLoader ds n [labels]) __len__ h
     = (inr n, h ++ [ClassificationDataLoader ds n labels])) ∧
  (∀ ds n, 0 ≤ n ≤ sys_maxsize →
     bind (new cls_DataLoader ds n []) (len sys_maxsize) h
     = (inr n, h ++ [DataLoader ds n])) ∧
  (∀ ds n labels, 0 ≤ n ≤ sys_maxsize →
     bind (new cls_ClassificationDataLoader ds n [labels]) (len sys_maxsize) h
     = (inr n, h ++ [ClassificationDataLoader ds n labels])) ∧
  (∀ self o, h !! self = Some o → __len__ self h = (inr (_size o), h)) ∧
  (∀ r o, h !! r = Some o →
     (∀ self, (__len__ self h).2 !! r = Some o) ∧
     (∀ self, (len sys_maxsize self h).2 !! r = Some o) ∧
     (∀ self batch_size is_training shuffle ctx preprocess,
        (gen_dataset self batch_size is_training shuffle ctx preprocess h).2 !! r
        = Some o) ∧
     (∀ self fraction, (split self fraction h).2 !! r = Some o) ∧
     (∀ self fraction args, (_split self fraction args h).2 !! r = Some o) ∧
     (∀ self, (num_classes self h).2 !! r = Some o)) ∧
  (∀ self fraction trainset testset h',
     split self fraction h = (inr (trainset, testset), h') →
     h !! trainset = None ∧ h !! testset = None ∧ trainset ≠ testset ∧
     is_Some (h' !! trainset) ∧ is_Some (h' !! testset)) ∧
  (∀ self o batch_size is_training shuffle ctx preprocess ds h',
     h !! self = Some o →
     gen_dataset self batch_size is_training shuffle ctx preprocess h
     = (inr ds, h') →
     ds ≠ _dataset o ∧ h' = h).
Proof.
  split; [|split; [|split; [|split; [|split; [|split; [|split]]]]]].
  - intros ds n. unfold __len__, bind, new, alloc, deref. cbn.
    by rewrite list_lookup_middle.
  - intros ds n labels. unfold __len__, bind, new, alloc, deref. cbn.
    by rewrite list_lookup_middle.
  - intros ds n Hn. unfold bind at 1. cbn [new alloc].
    rewrite (len_run _ _ _ (DataLoader ds n)) by by apply list_lookup_middle.
    cbn [_size]. destruct (n <? 0) eqn:Hneg; [lia|].
    destruct (sys_maxsize <? n) eqn:Hbig; [lia|done].
  - intros ds n labels Hn. unfold bind at 1. cbn [new alloc].
    rewrite (len_run _ _ _ (ClassificationDataLoader ds n labels))
      by by apply list_lookup_middle.
    cbn [_size]. destruct (n <? 0) eqn:Hneg; [lia|].
    destruct (sys_maxsize <? n) eqn:Hbig; [lia|done].
  - intros self o Hself. unfold __len__, bind.
    by rewrite (deref_lookup _ _ _ Hself).
  - intros r o Hr. repeat split; intros.
    + eapply prefix_lookup; [apply prefix__len__|done].
    + eapply prefix_lookup; [apply prefix_len|done].
    + eapply prefix_lookup; [apply prefix_gen_dataset|done].
    + eapply prefix_lookup; [apply prefix_split|done].
    + eapply prefix_lookup; [apply prefix__split|done].
    + eapply prefix_lookup; [apply prefix_num_classes|done].
  - intros self fraction trainset testset h' Hrun.
    destruct (h !! self) as [o|] eqn:Hself.
    + rewrite (split_run _ _ _ _ Hself) in Hrun.
      destruct (Qltb 0 fraction && Qltb fraction 1); [|done].
      injection Hrun as <- <- <-.
      split; [by apply lookup_ge_None_2|].
      split; [apply lookup_ge_None_2; lia|].
      split; [lia|].
      split; apply lookup_lt_is_Some; rewrite length_app; cbn; lia.
    + unfold split, bind, deref in Hrun. by rewrite Hself in Hrun.
  - intros self o batch_size is_training shuffle ctx preprocess ds h' Hself Hrun.
    rewrite (gen_dataset_run _ _ _ _ _ _ _ _ Hself) in Hrun.
    injection Hrun as <- <-. split; [|done].
    apply foldl_apply_longer. unfold described_calls.
    intros Hnil. repeat (apply app_eq_nil in Hnil as [_ Hnil]). done.
Qed.

End Loader.

Lemma loader_is_passive_witness :
  bind (new cls_DataLoader (Source [1; 2]%nat) 2 []) (len (2 ^ 63 - 1)) example_heap
    = (inr 2, example_heap ++ [DataLoader (Source [1; 2]%nat) 2]) ∧
  __len__ 0%nat example_heap = (inr 5, example_heap) ∧
  (split 0%nat (2 # 5) example_heap).2 !! 0%nat
    = Some (DataLoader (Source [10; 11; 12; 13; 14]%nat) 5) ∧
  (gen_dataset 0%nat 2 true true None (Some 7%nat) example_heap).2 !! 0%nat
    = Some (DataLoader (Source [10; 11; 12; 13; 14]%nat) 5).
Proof.
  destruct (loader_is_passive example_heap (2 ^ 63 - 1))
    as (_ & _ & Hnew & _ & Hlen & Hkeep & _ & _).
  destruct (Hkeep 0%nat (DataLoader (Source [10; 11; 12; 13; 14]%nat) 5) eq_refl)
    as (_ & _ & Hgen & Hsplit & _ & _).
  split; [|split; [|split]].
  - apply Hnew. lia.
  - apply (Hlen 0%nat (DataLoader (Source [10; 11; 12; 13; 14]%nat) 5)).
    reflexivity.
  - apply Hsplit.
  - apply Hgen.
Defined.


(** C8, as stated, fails on a negative size: the loader built with size
    [-3] has no length, [len] raises [ValueError]. *)
Lemma len_of_negative_size_raises :
  bind (new (Elem := nat) (Fn := nat) cls_DataLoader (Source []) (-3) [])
       (len (2 ^ 63 - 1)) []
  = (inl ValueError, [DataLoader (Source []) (-3)]) ∧
  bind (new (Elem := nat) (Fn := nat) cls_DataLoader (Source []) (-3) [])
       __len__ []
  = (inr (-3), [DataLoader (Source []) (-3)]).
Proof. split; reflexivity. Qed.

Lemma gen_dataset_calls_witness :
  gen_dataset 0%nat 2 true true
    (Some {| num_input_pipelines := 4; input_pipeline_id := 1 |}) (Some 7%nat)
    example_heap
  = (inr (Prefetch AUTOTUNE (Batch 2 (Repeat (Shuffle 5 (Map 7%nat AUTOTUNE
            (Shard 4 1 (Source [10; 11; 12; 13; 14]%nat))))))),
     example_heap).
Proof.
  destruct (gen_dataset_calls example_heap 0%nat
              (DataLoader (Source [10; 11; 12; 13; 14]%nat) 5) 2 true true
              (Some {| num_input_pipelines := 4; input_pipeline_id := 1 |})
              (Some 7%nat) eq_refl)
    as (ds & Hrun & Hds & _).
  rewrite Hrun, Hds. reflexivity.
Defined.

End DataUtilFacts.

(** ** The data loader: [split] on floats *)

Module DataUtilFloatFacts.
Import DataUtil DataUtilFloat Examples DataUtilFacts.

(** Rounding keeps the sign. *)
Lemma binary_round_aux_sign (s : bool) (m e : Z) (l : location) :
  match binary_round_aux prec emax s m e l with
  | S754_zero s' | S754_infinity s' | S754_finite s' _ _ => s' = s
  | S754_nan => True
  end.
Proof.
  unfold binary_round_aux.
  destruct (shr_fexp prec emax m e l) as [mrs' e'].
  destruct (shr_fexp prec emax _ e' loc_Exact) as [mrs'' e''].
  destruct (shr_m mrs''); try done. by destruct (_ <=? _).
Qed.

Lemma binary_round_sign (s : bool) (m : positive) (e : Z) :
  match binary_round prec emax s m e with
  | S754_zero s' | S754_infinity s' | S754_finite s' _ _ => s' = s
  | S754_nan => True
  end.
Proof.
  unfold binary_round. destruct (shl_align m e _) as [mz ez].
  apply binary_round_aux_sign.
Qed.

Lemma float_of_int_nonneg (n : Z) (x : float) :
  0 ≤ n → float_of_int n = Ok x → nonneg x.
Proof.
  unfold float_of_int, binary_normalize. intros Hn.
  destruct n as [|m|m]; [by intros [= <-]| |lia].
  pose proof (binary_round_sign false m 0) as Hsign.
  destruct (binary_round prec emax false m 0); try done; by intros [= <-].
Qed.

Lemma positive_float (x : float) :
  SFltb zero x = true → SFltb x one = true → ∃ m e, x = S754_finite false m e.
Proof.
  destruct x as [s|[]| |[] m e]; try done. by exists m, e.
Qed.

Lemma float_mul_nonneg (x y : float) (m : positive) (e : Z) :
  nonneg x → y = S754_finite false m e → nonneg (float_mul x y).
Proof.
  intros Hx ->. destruct x as [s|s| |s mx ex]; try done.
  - by cbn in *; subst.
  - cbn in Hx. subst s. unfold float_mul, SFmul. cbn [xorb].
    pose proof (binary_round_aux_sign false (Z.pos (mx * m)) (ex + e) loc_Exact)
      as Hsign.
    by destruct (binary_round_aux prec emax false _ _ loc_Exact).
Qed.

(** [int] of a float is the truncation of the number it stands for. *)
Lemma int_value (x : float) (k : Z) : int x = Ok k → k = DataUtil.int (value x).
Proof.
  destruct x as [s|s| |s m e]; try done; intros [= <-]; [done|].
  unfold value, DataUtil.int. destruct (0 <=? e) eqn:He.
  - apply Z.leb_le in He. cbn [Qnum Qden inject_Z]. rewrite Z.quot_1_r.
    rewrite Z.shiftl_mul_pow2 by done.
    destruct s; cbn [cond_Zopp]; [|done].
    by rewrite Z.mul_opp_l.
  - apply Z.leb_gt in He. cbn [Qnum Qden].
    rewrite Z.shiftl_div_pow2 by lia.
    assert (Hpow : Z.pos (2 ^ Z.to_pos (- e)) = 2 ^ (- e)).
    { rewrite Pos2Z.inj_pow, Z2Pos.id by lia. done. }
    rewrite Hpow. destruct s; cbn [cond_Zopp].
    + rewrite Z.quot_opp_l by lia.
      rewrite Z.quot_div_nonneg by lia. done.
    + rewrite Z.quot_div_nonneg by lia. done.
Qed.

Lemma value_nonneg (x : float) : nonneg x → (0 <= value x)%Q.
Proof.
  destruct x as [s|s| |s m e]; try done. cbn. intros ->.
  destruct (0 <=? e) eqn:He; unfold Qle; cbn; lia.
Qed.

Lemma digits2_pos_bounds (m : positive) :
  2 ^ (Z.pos (digits2_pos m) - 1) ≤ Z.pos m < 2 ^ Z.pos (digits2_pos m).
Proof.
  induction m as [m IH|m IH|]; cbn [digits2_pos]; [| |done].
  - rewrite Pos2Z.inj_succ. change (Z.pos m~1) with (2 * Z.pos m + 1).
    replace (Z.succ (Z.pos (digits2_pos m)) - 1)
      with (Z.succ (Z.pos (digits2_pos m) - 1)) by lia.
    rewrite !Z.pow_succ_r by lia. revert IH.
    generalize (2 ^ (Z.pos (digits2_pos m) - 1)), (2 ^ Z.pos (digits2_pos m)).
    lia.
  - rewrite Pos2Z.inj_succ. change (Z.pos m~0) with (2 * Z.pos m).
    replace (Z.succ (Z.pos (digits2_pos m)) - 1)
      with (Z.succ (Z.pos (digits2_pos m) - 1)) by lia.
    rewrite !Z.pow_succ_r by lia. revert IH.
    generalize (2 ^ (Z.pos (digits2_pos m) - 1)), (2 ^ Z.pos (digits2_pos m)).
    lia.
Qed.

Lemma value_of_finite (m : positive) (e : Z) :
  ∃ n d : Z,
    0 < d ∧ (value (S754_finite false m e) == n # Z.to_pos d)%Q ∧
    ((0 ≤ e ∧ n = Z.pos m * 2 ^ e ∧ d = 1) ∨
     (e < 0 ∧ n = Z.pos m ∧ d = 2 ^ (- e))).
Proof.
  unfold value. destruct (0 <=? e) eqn:He.
  - apply Z.leb_le in He. exists (Z.pos m * 2 ^ e), 1.
    split; [done|]. split; [done|]. left. done.
  - apply Z.leb_gt in He. exists (Z.pos m), (2 ^ (- e)).
    assert (0 < 2 ^ (- e)) by (apply Z.pow_pos_nonneg; lia).
    split; [done|]. split; [|right; done]. cbn [cond_Zopp].
    replace (Z.to_pos (2 ^ (- e))) with (2 ^ Z.to_pos (- e))%positive; [done|].
    apply Pos2Z.inj. rewrite Pos2Z.inj_pow, !Z2Pos.id by lia. done.
Qed.

Lemma SFltb_finite (m c : positive) (e e' : Z) :
  SFltb (S754_finite false m e) (S754_finite false c e') = true
  ↔ e < e' ∨ (e = e' ∧ Z.pos m < Z.pos c).
Proof.
  unfold SFltb, SFcompare. destruct (Z.compare_spec e e') as [->|He|He].
  - rewrite Pos.compare_cont_spec.
    destruct (Pos.compare_spec m c) as [->|Hm|Hm]; cbn; split; try done; lia.
  - split; [lia|done].
  - split; [done|lia].
Qed.

(** On the floats that exist, the two comparisons of the assertion are
    those of the numbers the floats stand for. *)
Lemma assertion_of_values (x : float) :
  valid_binary prec emax x = true →
  SFltb zero x && SFltb x one = true ↔ (0 < value x)%Q ∧ (value x < 1)%Q.
Proof.
  destruct x as [s|[]| |[] m e]; try (by split; [|intros [? ?]]).
  - intros _. split; [done|]. intros [Hpos _]. exfalso. revert Hpos.
    unfold value. destruct (0 <=? e); unfold Qlt; cbn; lia.
  - unfold valid_binary, bounded, canonical_mantissa, fexp, emin, prec, emax.
    intros Hvalid. apply andb_true_iff in Hvalid as [Hcanon Hmax].
    apply Z.eqb_eq in Hcanon. apply Z.leb_le in Hmax.
    pose proof (digits2_pos_bounds m) as Hdigits.
    set (d := Z.pos (digits2_pos m)) in *.
    assert (H52 : 2 ^ 52 = 4503599627370496) by (vm_compute; reflexivity).
    assert (H53 : 2 ^ 53 = 9007199254740992) by (vm_compute; reflexivity).
    assert (Hd : d ≤ 53 ∧ (-1074 < e → d = 53)) by lia.
    assert (Hm53 : Z.pos m < 2 ^ 53).
    { eapply Z.lt_le_trans; [apply Hdigits|]. apply Z.pow_le_mono_r; lia. }
    assert (Hm52 : -1074 < e → 2 ^ 52 ≤ Z.pos m).
    { intros He. destruct Hd as [_ Hd]. rewrite (Hd He) in Hdigits.
      apply Hdigits. }
    rewrite H52 in Hm52. rewrite H53 in Hm53. clear Hdigits Hd Hcanon.
    destruct (value_of_finite m e) as (n & q & Hq & -> & Hcases).
    assert (Hlt : ∀ k : Z, (k # 1 < n # Z.to_pos q)%Q ↔ k * q < n).
    { intros k. unfold Qlt. cbn [Qnum Qden]. rewrite Z2Pos.id by done. lia. }
    assert (Hgt : (n # Z.to_pos q < 1)%Q ↔ n < q).
    { unfold Qlt. cbn [Qnum Qden]. rewrite Z2Pos.id by done. lia. }
    change 0%Q with (0 # 1). rewrite Hlt, Hgt. clear Hlt Hgt.
    assert (Hzero : SFltb zero (S754_finite false m e) = true) by done.
    rewrite Hzero. cbn [andb]. unfold one. rewrite SFltb_finite.
    assert (Hpow : ∀ a b, 0 ≤ a ≤ b → 0 < 2 ^ a ≤ 2 ^ b).
    { intros a b Hab.
      split; [apply Z.pow_pos_nonneg; lia|apply Z.pow_le_mono_r; lia]. }
    destruct Hcases as [(He & -> & ->)|(He & -> & ->)].
    + pose proof (Hpow 0 e ltac:(lia)) as H0. rewrite Z.pow_0_r in H0.
      specialize (Hm52 ltac:(lia)). split; [lia|]. nia.
    + destruct (Z.compare_spec e (-52)) as [->|Hlt52|Hgt52].
      * change (- -52) with 52. rewrite H52. lia.
      * pose proof (Hpow 53 (- e) ltac:(lia)) as Hp. rewrite H53 in Hp. lia.
      * pose proof (Hpow (- e) 52 ltac:(lia)) as Hp. rewrite H52 in Hp.
        specialize (Hm52 ltac:(lia)). lia.
Qed.

Section Loader.
Context {Elem Fn : Type}.
Implicit Types (h : heap Elem Fn) (o : object Elem Fn) (ds : dataset Elem Fn).

(** What [_split] does on the arguments [split] passes to it. *)
Lemma float_split_run h self o (fraction : float) :
  h !! self = Some o →
  split self fraction h
  = if SFltb zero fraction && SFltb fraction one
    then match rbind (int_mul_float (_size o) fraction) int with
         | inr train_size =>
             (inr (length h, S (length h)),
              h ++ [sibling o (Take train_size (_dataset o)) train_size;
                    sibling o (Skip train_size (_dataset o))
                      (_size o - train_size)])
         | inl e => (inl e, h)
         end
    else (inl AssertionError, h).
Proof.
  intros Hself.
  assert (Hmain : _split self fraction
            (match index_to_label o with Some labels => [labels] | None => [] end) h
          = if SFltb zero fraction && SFltb fraction one
            then match rbind (int_mul_float (_size o) fraction) int with
                 | inr train_size =>
                     (inr (length h, S (length h)),
                      h ++ [sibling o (Take train_size (_dataset o)) train_size;
                            sibling o (Skip train_size (_dataset o))
                              (_size o - train_size)])
                 | inl e => (inl e, h)
                 end
            else (inl AssertionError, h)).
  { unfold _split, bind at 1. rewrite (deref_lookup _ _ _ Hself).
    destruct (SFltb zero fraction && SFltb fraction one); cbn [negb]; [|done].
    unfold bind at 1, lift.
    destruct (int_mul_float (_size o) fraction) as [e|product]; [done|].
    cbn [rbind]. unfold bind at 1.
    destruct (int product) as [e|train_size]; [done|].
    unfold bind. rewrite !new_sibling. unfold ret.
    rewrite length_app. cbn [length]. rewrite Nat.add_1_r.
    by rewrite <- app_assoc. }
  rewrite <- Hmain. unfold split, bind at 1. rewrite (deref_lookup _ _ _ Hself).
  destruct o; cbn [__class__ index_to_label].
  - reflexivity.
  - unfold ClassificationDataLoader_split, getattr_index_to_label, bind at 1.
    unfold bind at 1. rewrite (deref_lookup _ _ _ Hself).
    reflexivity.
Qed.

(** C5, as amended. [split] raises [AssertionError] unless
    [fraction > 0] and [fraction < 1], which on floats are the comparisons
    of the numbers they stand for. Otherwise the size [n] is
    multiplied by the fraction as floats are: [n] is converted to the
    nearest float, which raises [OverflowError] when [n] is too large,
    and the product is rounded to the nearest float [p]. The two new
    loaders have sizes [int(p)] and [n - int(p)], where [int] rounds
    towards zero and so is the floor of [p] whenever [n] is not
    negative. The sizes add up to [n]; the first loader takes the first
    [int(p)] elements of the dataset, the second skips them. *)
Theorem split_sizes h self o (fraction : float) :
  h !! self = Some o →
  (valid_binary prec emax fraction = true →
   SFltb zero fraction && SFltb fraction one = true
   ↔ (0 < value fraction)%Q ∧ (value fraction < 1)%Q) ∧
  (SFltb zero fraction && SFltb fraction one = false →
     split self fraction h = (inl AssertionError, h)) ∧
  (SFltb zero fraction && SFltb fraction one = true →
     (∀ e, rbind (int_mul_float (_size o) fraction) int = Raise e →
        split self fraction h = (inl e, h)) ∧
     (∀ e, float_of_int (_size o) = Raise e → e = OverflowError) ∧
     (∀ x p, float_of_int (_size o) = Ok x →
        int_mul_float (_size o) fraction = Ok p → p = float_mul x fraction) ∧
     ∀ p train_size,
       int_mul_float (_size o) fraction = Ok p → int p = Ok train_size →
       train_size = DataUtil.int (value p) ∧
       (0 ≤ _size o → train_size = Qfloor (value p)) ∧
       train_size + (_size o - train_size) = _size o ∧
       split self fraction h =
         (inr (length h, S (length h)),
          h ++ [sibling o (Take train_size (_dataset o)) train_size;
                sibling o (Skip train_size (_dataset o)) (_size o - train_size)]) ∧
       (∀ l, 0 ≤ _size o → elements_of (_dataset o) = Some l →
          elements_of (Take train_size (_dataset o))
            = Some (firstn (Z.to_nat train_size) l) ∧
          elements_of (Skip train_size (_dataset o))
            = Some (skipn (Z.to_nat train_size) l) ∧
          firstn (Z.to_nat train_size) l ++ skipn (Z.to_nat train_size) l = l)).
Proof.
  intros Hself. split; [apply assertion_of_values|].
  rewrite (float_split_run _ _ _ _ Hself). split.
  - by intros ->.
  - intros Hyes. rewrite Hyes. split; [by intros e ->|]. split.
    { intros e. unfold float_of_int.
      destruct (binary_normalize _ _ _ _ _); try done. by intros [= <-]. }
    split.
    { intros x p Hx. unfold int_mul_float. rewrite Hx. by intros [= <-]. }
    intros p train_size Hp Hint. rewrite Hp. unfold Ok. cbn [rbind]. rewrite Hint.
    pose proof (int_value _ _ Hint) as Hk.
    assert (Hpos : 0 ≤ _size o → (0 <= value p)%Q).
    { intros Hn. apply value_nonneg. unfold int_mul_float in Hp.
      destruct (float_of_int (_size o)) as [e|x] eqn:Hx; [done|].
      injection Hp as <-. apply andb_true_iff in Hyes as [H0 H1].
      destruct (positive_float _ H0 H1) as (m & e & Hf).
      eapply float_mul_nonneg; [|done]. by eapply float_of_int_nonneg. }
    split; [done|]. split; [|split; [lia|split; [reflexivity|]]].
    + intros Hn. rewrite Hk. by apply int_floor, Hpos.
    + intros l Hn Hl.
      destruct (elements_take_skip (_dataset o) l train_size) as [Ht Hs];
        [|done|].
      { rewrite Hk. by apply int_nonneg, Hpos. }
      rewrite Ht, Hs. repeat split. apply firstn_skipn.
Qed.
End Loader.

Lemma split_sizes_witness :
  split 0%nat seven_tenths heap_of_ten =
    (inr (1%nat, 2%nat),
     heap_of_ten ++
       [DataLoader (Take 7 (Source (seq 0 10))) 7;
        DataLoader (Skip 7 (Source (seq 0 10))) 3]).
Proof.
  destruct (split_sizes heap_of_ten 0%nat
              (DataLoader (Source (seq 0 10)) 10) seven_tenths eq_refl)
    as (_ & _ & Hyes).
  destruct (Hyes eq_refl) as (_ & _ & _ & Hsizes).
  destruct (Hsizes (S754_finite false 7881299347898368 (-50)) 7 eq_refl eq_refl)
    as (_ & _ & _ & Hrun & _).
  exact Hrun.
Defined.

(** C5, as stated, fails in two ways. On a loader of negative size, which
    the constructor accepts, the first size is not a floor: of size [-3]
    and fraction [0.5] it is [int(-1.5) = -1], and [floor(-1.5)] is [-2].
    And the product is the rounded one: of size [10] and the float [0.7],
    which stands for a number below seven tenths, the first size is [7],
    while the floor of ten times that number is [6]. *)
Lemma split_negative_size_not_floor :
  (SFltb zero one_half && SFltb one_half one = true ∧
   split 0%nat one_half negative_heap =
     (inr (1%nat, 2%nat),
      negative_heap ++
        [DataLoader (Take (-1) (Source [])) (-1);
         DataLoader (Skip (-1) (Source [])) (-2)]) ∧
   Qfloor (inject_Z (-3) * value one_half) = -2) ∧
  (SFltb zero seven_tenths && SFltb seven_tenths one = true ∧
   split 0%nat seven_tenths heap_of_ten =
     (inr (1%nat, 2%nat),
      heap_of_ten ++
        [DataLoader (Take 7 (Source (seq 0 10))) 7;
         DataLoader (Skip 7 (Source (seq 0 10))) 3]) ∧
   Qfloor (inject_Z 10 * value seven_tenths) = 6).
Proof. repeat split. Qed.

End DataUtilFloatFacts.

(** ** The upload application *)

Module AppFacts.
Import App Examples.

Local Arguments String.append !_ _ / : simpl nomatch.

(** *** Lines and white space *)

Lemma concat_empty_cons (x : string) (xs : list string) :
  String.concat "" (x :: xs) = (x ++ String.concat "" xs)%string.
Proof.
  destruct xs; cbn; [|done].
  induction x as [|c x IH]; cbn; [done|]. congruence.
Qed.

Lemma concat_split_lines (text : string) :
  String.concat "" (split_lines text) = text.
Proof.
  induction text as [|c rest IH]; [done|]. cbn [split_lines].
  destruct (Ascii.eqb c newline).
  - by rewrite concat_empty_cons, IH.
  - destruct (split_lines rest) as [|line lines].
    + cbn in IH. by subst rest.
    + rewrite concat_empty_cons in IH. rewrite concat_empty_cons. cbn.
      by rewrite IH.
Qed.

Lemma contains_app c (a b : string) :
  contains c (a ++ b) = contains c a || contains c b.
Proof.
  induction a as [|d a IH]; cbn; [done|]. by rewrite IH, orb_assoc.
Qed.

(** Every line is a body without line feed, followed by a line feed or,
    for the last line only, by the end of the text. *)
Lemma split_lines_lines (text : string) :
  ∀ i line, split_lines text !! i = Some line →
    ∃ body, contains newline body = false ∧
      (line = (body ++ String newline "")%string ∨
       (line = body ∧ body ≠ "" ∧ S i = length (split_lines text))).
Proof.
  induction text as [|c rest IH]; intros i line Hi; [done|].
  cbn [split_lines] in *. destruct (Ascii.eqb c newline) eqn:Hc.
  - apply Ascii.eqb_eq in Hc as ->. destruct i as [|i]; cbn in Hi.
    + injection Hi as <-. exists "". split; [done|]. by left.
    + destruct (IH i line Hi) as (body & Hbody & [->|(-> & Hne & Hlast)]);
        exists body; (split; [done|]); [by left|right].
      repeat split; [done|]. cbn. by rewrite Hlast.
  - destruct (split_lines rest) as [|first lines] eqn:Hrest.
    + destruct i as [|i]; [|done]. injection Hi as <-.
      exists (String c ""). cbn. rewrite Hc. split; [done|]. right. done.
    + destruct i as [|i]; cbn in Hi.
      * injection Hi as <-.
        destruct (IH 0%nat first eq_refl) as (body & Hbody & [->|(-> & Hne & Hlast)]);
          exists (String c body); cbn; rewrite Hc, Hbody; (split; [done|]);
          [by left|right]. done.
      * destruct (IH (S i) line Hi) as (body & Hbody & [->|(-> & Hne & Hlast)]);
          exists body; (split; [done|]); [by left|right]. done.
Qed.

Lemma without_cr_clean (text : string) :
  contains carriage_return (without_cr text) = false.
Proof.
  induction text as [|c rest IH]; [done|]. cbn [without_cr].
  destruct (Ascii.eqb c carriage_return) eqn:Hc; [done|]. cbn. by rewrite Hc.
Qed.

Lemma contains_concat c (lines : list string) (line : string) :
  contains c (String.concat "" lines) = false → line ∈ lines →
  contains c line = false.
Proof.
  induction lines as [|first lines IH]; intros Hc Hin;
    [by apply not_elem_of_nil in Hin|].
  rewrite concat_empty_cons, contains_app in Hc.
  apply orb_false_iff in Hc as [Hfirst Hrest].
  apply elem_of_cons in Hin as [->|Hin]; [done|]. by apply IH.
Qed.

Lemma rstrip_split (s : str) :
  ∃ ws, s = rstrip s ++ ws ∧ all_space ws = true.
Proof.
  induction s as [|c s (ws & Hs & Hws)]; [by exists []|]. cbn [rstrip].
  destruct (rstrip s) as [|d kept] eqn:Hkept.
  - destruct (isspace c) eqn:Hc.
    + exists (c :: s). split; [done|]. cbn in Hs. subst ws. cbn.
      by rewrite Hc.
    + exists ws. split; [|done]. cbn in *. by rewrite <- Hs.
  - exists ws. split; [|done]. cbn. cbn in Hs. by rewrite <- Hs.
Qed.

Lemma rstrip_no_trailing_space (s : str) : no_trailing_space (rstrip s) = true.
Proof.
  induction s as [|c s IH]; [done|]. cbn [rstrip].
  destruct (rstrip s) as [|d kept] eqn:Hkept.
  - destruct (isspace c) eqn:Hc; cbn; [done|]. by rewrite Hc.
  - change (no_trailing_space (c :: d :: kept))
      with (no_trailing_space (d :: kept)). done.
Qed.

(** The comprehension returns when every line can be decoded, with one
    label per line. *)
Lemma label_texts_returns (lines : list string) (labels : list str) :
  label_texts lines = Ok labels →
  length labels = length lines ∧
  ∀ i line, lines !! i = Some line →
    ∃ t, utf8_decode line = Some t ∧ labels !! i = Some (rstrip t).
Proof.
  revert labels. induction lines as [|first lines IH]; intros labels Hrun.
  - injection Hrun as <-. done.
  - cbn [label_texts] in Hrun. unfold label_of_line, as_str in Hrun.
    destruct (utf8_decode first) as [t|] eqn:Hfirst; [|done]. cbn in Hrun.
    destruct (label_texts lines) as [e|rest]; [done|]. cbn in Hrun.
    injection Hrun as <-. destruct (IH rest eq_refl) as [Hlen Hall].
    split; [cbn; by rewrite Hlen|]. intros [|i] line Hi.
    + injection Hi as <-. by exists t.
    + by apply Hall.
Qed.

Lemma label_texts_total (lines : list string) :
  (∀ line, line ∈ lines → is_Some (utf8_decode line)) →
  ∃ labels, label_texts lines = Ok labels.
Proof.
  induction lines as [|first lines IH]; intros Hall; [by eexists|].
  destruct (Hall first) as [t Ht]; [by left|].
  destruct IH as [rest Hrest]; [intros line Hin; apply Hall; by right|].
  exists (rstrip t :: rest). cbn [label_texts]. unfold label_of_line, as_str.
  by rewrite Ht, Hrest.
Qed.

Lemma label_texts_raises (lines : list string) (e : exn) :
  label_texts lines = Raise e →
  e = UnicodeDecodeError ∧ ∃ line, line ∈ lines ∧ utf8_decode line = None.
Proof.
  induction lines as [|first lines IH]; intros Hrun; [done|].
  cbn [label_texts] in Hrun. unfold label_of_line, as_str in Hrun.
  destruct (utf8_decode first) as [t|] eqn:Hfirst.
  - cbn in Hrun. destruct (label_texts lines) as [e'|rest]; [|done].
    cbn in Hrun. injection Hrun as ->.
    destruct (IH eq_refl) as (He & line & Hin & Hline).
    split; [done|]. exists line. split; [by right|done].
  - injection Hrun as <-. split; [done|]. exists first. split; [by left|done].
Qed.

Lemma label_lines_returns (text : string) (labels : list string) :
  label_lines text = Ok labels →
  ∃ texts, label_texts (readlines text) = Ok texts ∧
           labels = utf8_encode <$> texts.
Proof.
  unfold label_lines. destruct (label_texts (readlines text)) as [e|texts];
    [done|].
  intros [= <-]. by exists texts.
Qed.

(** C7, as amended. The label list has one entry per line that the file
    yields, in file order. The lines are the pieces of the bytes of the
    file that end after each line feed (the last one at the end of the
    file), with every carriage return left out. Every line is decoded as
    UTF-8, and its entry is the line without the white space at its end,
    the line feed included. When a line is not UTF-8 the reading raises
    [UnicodeDecodeError], and it raises in no other case. *)
Theorem label_lines_per_line (text : string) :
  String.concat "" (readlines text) = without_cr text ∧
  (∀ i line, readlines text !! i = Some line →
     contains carriage_return line = false ∧
     ∃ body, contains newline body = false ∧
       (line = (body ++ String newline "")%string ∨
        (line = body ∧ body ≠ "" ∧ S i = length (readlines text)))) ∧
  (∀ labels, label_lines text = Ok labels →
     length labels = length (readlines text) ∧
     ∀ i line, readlines text !! i = Some line →
       ∃ t, utf8_decode line = Some t ∧
            labels !! i = Some (utf8_encode (rstrip t)) ∧
            (∃ ws, t = rstrip t ++ ws ∧ all_space ws = true) ∧
            no_trailing_space (rstrip t) = true) ∧
  isspace (ord newline) = true ∧
  ((∀ line, line ∈ readlines text → is_Some (utf8_decode line)) →
   ∃ labels, label_lines text = Ok labels) ∧
  (∀ e, label_lines text = Raise e →
     e = UnicodeDecodeError ∧
     ∃ line, line ∈ readlines text ∧ utf8_decode line = None).
Proof.
  split; [apply concat_split_lines|]. split.
  { intros i line Hi. split; [|by apply split_lines_lines with (i := i)].
    apply (contains_concat _ (readlines text)).
    - unfold readlines. rewrite concat_split_lines. apply without_cr_clean.
    - by eapply list_elem_of_lookup_2. }
  split.
  { intros labels Hrun.
    apply label_lines_returns in Hrun as (texts & Htexts & ->).
    apply label_texts_returns in Htexts as [Hlen Hall].
    split; [by rewrite length_fmap|]. intros i line Hi.
    destruct (Hall i line Hi) as (t & Ht & Hlabel). exists t.
    split; [done|]. split; [by rewrite list_lookup_fmap, Hlabel|].
    split; [apply rstrip_split|apply rstrip_no_trailing_space]. }
  split; [done|]. split.
  { intros Hall. destruct (label_texts_total _ Hall) as [texts Htexts].
    exists (utf8_encode <$> texts). unfold label_lines. by rewrite Htexts. }
  intros e Hrun. apply label_texts_raises. unfold label_lines in Hrun.
  destruct (label_texts (readlines text)) as [e'|texts]; cbn in Hrun;
    [by injection Hrun as ->|discriminate Hrun].
Qed.

Lemma label_lines_per_line_witness :
  ∃ labels,
    label_lines "healthy
rust  
scab" = Ok labels ∧ labels !! 1%nat = Some "rust".
Proof.
  destruct (label_lines_per_line "healthy
rust  
scab") as (_ & _ & Hlabels & _ & Htotal & _).
  destruct Htotal as [labels Hrun].
  { intros line Hin. apply list_elem_of_In in Hin. vm_compute in Hin.
    destruct Hin as [<-|[<-|[<-|[]]]]; vm_compute; by eexists. }
  exists labels. split; [exact Hrun|].
  destruct (Hlabels labels Hrun) as [_ Hline].
  destruct (Hline 1%nat "rust  
" eq_refl) as (t & Ht & Hentry & _).
  vm_compute in Ht. injection Ht as <-. exact Hentry.
Defined.

(** C7, as stated, fails on a file with a carriage return: the only line of
    the file [c], carriage return, [d], line feed has a carriage return
    before its last letter, which stripping the end of the line leaves
    in place; the label the handler uses is [cd]. *)
Lemma label_lines_drops_carriage_returns :
  split_lines text_with_cr = [text_with_cr] ∧
  rbind (label_of_line text_with_cr) (λ label, Ok (utf8_encode label))
  = Ok (String "c" (String carriage_return "d")) ∧
  label_lines text_with_cr = Ok ["cd"] ∧
  "cd" ≠ String "c" (String carriage_return "d").
Proof. repeat split. discriminate. Qed.

(** *** The classification loop *)

Section Classification.
Variable argsort : list Q → list nat.
Variable L : list string.
Variable p : list Q.

Local Abbreviation value j := (nth j p 0%Q).
Local Abbreviation passes := (λ j : nat, Qltb 20 (nth j p 0%Q * 100)%Q).
Local Abbreviation in_range :=
  (λ j : nat, (j < length L)%nat ∧ (j < length p)%nat).

Lemma collect_run (ks : list nat) (name : list string) (scores : list Q) :
  Forall in_range ks →
  collect L p ks name scores =
    Ok (name ++ map (λ j, nth j L "") (List.filter passes ks),
        scores ++ map (λ j, (value j * 100)%Q) (List.filter passes ks)).
Proof.
  revert name scores. induction ks as [|j ks IH]; intros name scores Hks.
  - cbn. by rewrite !app_nil_r.
  - apply Forall_cons in Hks as [[HjL Hjp] Hks]. cbn [collect List.filter].
    unfold getitem.
    destruct (lookup_lt_is_Some_2 L j HjL) as [label Hlabel].
    destruct (lookup_lt_is_Some_2 p j Hjp) as [x Hx].
    rewrite Hlabel, Hx. cbn [rbind Ok].
    assert (value j = x) as Hv by (by rewrite nth_lookup, Hx).
    assert (nth j L "" = label) as Hl by (by rewrite nth_lookup, Hlabel).
    rewrite Hv. destruct (Qltb 20 (x * 100)).
    + rewrite (IH _ _ Hks). cbn [map]. rewrite Hv, Hl.
      by rewrite <- !app_assoc.
    + by apply IH.
Qed.

Lemma collect_in_range (ks : list nat) name scores found :
  collect L p ks name scores = Ok found → Forall in_range ks.
Proof.
  revert name scores. induction ks as [|j ks IH]; intros name scores Hrun.
  - constructor.
  - cbn [collect] in Hrun. unfold getitem in Hrun.
    destruct (L !! j) as [label|] eqn:Hlabel; [|done].
    destruct (p !! j) as [x|] eqn:Hx; [|done]. cbn [rbind Ok] in Hrun.
    constructor.
    + split; eapply lookup_lt_Some; eassumption.
    + destruct (Qltb 20 (x * 100)); eapply IH; eassumption.
Qed.

Hypothesis argsort_ok : is_argsort p (argsort p).

Lemma top_k_rev : top_k argsort p = rev (argsort p).
Proof.
  destruct argsort_ok as [Hperm _]. apply Permutation_length in Hperm.
  rewrite length_seq in Hperm. unfold top_k, slice_last.
  destruct (length p =? 0)%nat; [done|].
  by rewrite Hperm, Nat.sub_diag.
Qed.

Lemma top_k_indices (j : nat) : j ∈ top_k argsort p ↔ (j < length p)%nat.
Proof.
  destruct argsort_ok as [Hperm _]. rewrite top_k_rev.
  rewrite list_elem_of_In, <- in_rev, <- list_elem_of_In, Hperm.
  rewrite list_elem_of_In, in_seq. lia.
Qed.








End Classification.


(** *** The handler *)

Lemma bind_ok {S A B} (m : M S A) (k : A → M S B) s a s' :
  m s = (inr a, s') → bind m k s = k a s'.
Proof. unfold bind. by intros ->. Qed.

Lemma bind_raised {S A B} (m : M S A) (k : A → M S B) s e s' :
  m s = (inl e, s') → bind m k s = (inl e, s').
Proof. unfold bind. by intros ->. Qed.

Lemma bind_lift_ok {S A B} (r : result A) (k : A → M S B) s a :
  r = Ok a → bind (lift r) k s = k a s.
Proof. by intros ->. Qed.

Lemma bind_lift_raised {S A B} (r : result A) (k : A → M S B) s e :
  r = Raise e → bind (lift r) k s = (inl e, s).
Proof. by intros ->. Qed.

(** One step of a computation that is known to return: the step returned
    as well, with some value and store. *)
Ltac returned H Hstep :=
  match type of H with
  | bind ?m ?k ?s = (inr _, _) =>
      let e := fresh "e" in
      destruct (m s) as [[e|?] ?] eqn:Hstep;
      [ by rewrite (bind_raised m k s _ _ Hstep) in H
      | rewrite (bind_ok m k s _ _ Hstep) in H ]
  end.

(** A step that is known to return, in the goal. *)
Ltac pass H := rewrite (bind_ok _ _ _ _ _ H).
Ltac pass_pure H := rewrite (bind_lift_ok _ _ _ _ H).

Section Upload.
Variable sys : Platform.
Variable APP_ROOT : string.
Variable argsort : list Q → list nat.
Variable session_run : string → string → result (list (list Q)).

Local Abbreviation target := (App.target APP_ROOT).
Local Abbreviation destination_of := (App.destination_of APP_ROOT).
Local Abbreviation save_files := (App.save_files sys APP_ROOT).
Local Abbreviation saved_in_order := (App.saved_in_order sys APP_ROOT).
Local Abbreviation upload := (App.upload sys APP_ROOT argsort session_run).
Local Abbreviation dispatch_request :=
  (App.dispatch_request sys APP_ROOT argsort session_run).

Lemma destination_of_eq f :
  destination_of f = (target ++ "/" ++ filename f)%string.
Proof. reflexivity. Qed.

Lemma last_cons_from_option (f : FileStorage) (fs : list FileStorage)
    (d : option string) :
  from_option (λ g, Some (destination_of g)) (Some (destination_of f)) (last fs)
  = from_option (λ g, Some (destination_of g)) d (last (f :: fs)).
Proof.
  destruct fs as [|g fs]; [done|].
  change (last (f :: g :: fs)) with (last (g :: fs)).
  destruct (last (g :: fs)) eqn:Hlast; [done|]. by apply last_None in Hlast.
Qed.

(** The loop over the uploaded files returns exactly when every [save]
    returns, and then binds [destination] to the destination of the last
    file. *)
Lemma save_files_run (fs : list FileStorage) (d : option string) w w' :
  saved_in_order fs w w' →
  save_files fs d w =
    (inr (from_option (λ f, Some (destination_of f)) d (last fs)), w').
Proof.
  revert d w. induction fs as [|f fs IH]; intros d w Hsaved.
  - cbn in Hsaved. by subst w'.
  - destruct Hsaved as (w1 & Hsave & Hrest). cbn [App.save_files].
    pass Hsave. rewrite (IH _ _ Hrest).
    by rewrite (last_cons_from_option f fs d).
Qed.

Lemma save_files_inv (fs : list FileStorage) (d : option string) w r w' :
  save_files fs d w = (inr r, w') → saved_in_order fs w w'.
Proof.
  revert d w. induction fs as [|f fs IH]; intros d w Hrun.
  - by injection Hrun as _ <-.
  - cbn [App.save_files] in Hrun. returned Hrun Hsave. destruct u.
    eexists. split; [done|]. by eapply IH.
Qed.

(** The loop stops at the first file that cannot be saved, with the files
    before it saved. *)
Lemma save_files_raised (before : list FileStorage) (file : FileStorage)
    (after : list FileStorage) (d : option string) w w1 e w2 :
  saved_in_order before w w1 →
  file_save sys file (destination_of file) w1 = (inl e, w2) →
  save_files (before ++ file :: after) d w = (inl e, w2).
Proof.
  revert d w. induction before as [|f fs IH]; intros d w Hsaved Hfails.
  - cbn in Hsaved. subst w1. cbn [app App.save_files]. by apply bind_raised.
  - destruct Hsaved as (w0 & Hsave & Hrest).
    change ((f :: fs) ++ file :: after) with (f :: (fs ++ file :: after)).
    cbn [App.save_files]. pass Hsave. by apply IH.
Qed.


(** What a returning run of [upload] has gone through. *)
Lemma upload_inv (req : Request) w resp w5 :
  upload req w = (inr resp, w5) →
  ∃ fs image isdir w0 w1 w2 image_data w3 labels_text w4 labels graph
      predictions prediction found,
    getlist "file" req = fs ++ [image] ∧
    path_isdir sys target w = (inr isdir, w0) ∧
    (if negb isdir then mkdir sys target else ret tt) w0 = (inr tt, w1) ∧
    saved_in_order (fs ++ [image]) w1 w2 ∧
    file_read sys (destination_of image) w2 = (inr image_data, w3) ∧
    file_read sys "retrained_labels.txt" w3 = (inr labels_text, w4) ∧
    label_lines labels_text = Ok labels ∧
    file_read sys "retrained_graph.pb" w4 = (inr graph, w5) ∧
    session_run graph image_data = Ok predictions ∧
    getitem predictions 0 = Ok prediction ∧
    classify argsort labels prediction = Ok found ∧
    resp = render_template "complete.html"
             [("name", StrList (fst found)); ("scores", NumList (snd found))].
Proof.
  intros Hrun. unfold App.upload in Hrun.
  returned Hrun Hisdir. returned Hrun Hmkdir. destruct u.
  returned Hrun Hsave. pose proof (save_files_inv _ _ _ _ _ Hsave) as Hsaved.
  rewrite (save_files_run _ None _ _ Hsaved) in Hsave. injection Hsave as <-.
  destruct (last (getlist "file" req)) as [image|] eqn:Hlast; [|done].
  apply last_Some in Hlast as [fs Hfiles]. rewrite Hfiles in Hsaved.
  cbn [from_option] in Hrun. erewrite bind_ok in Hrun by reflexivity.
  returned Hrun Himage. returned Hrun Hlabels.
  returned Hrun Hlines. injection Hlines as Hlines <-.
  returned Hrun Hgraph.
  returned Hrun Hsession. injection Hsession as Hsession <-.
  returned Hrun Hfirst. injection Hfirst as Hfirst <-.
  returned Hrun Hfound. injection Hfound as Hfound <-.
  injection Hrun as <- <-.
  by repeat eexists.
Qed.

Lemma dispatch_request_routes (req : Request) w :
  dispatch_request req w =
    if String.eqb "/" (path req)
    then if String.eqb (method req) "GET" then index sys req w
         else (inr MethodNotAllowed, w)
    else if String.eqb "/upload" (path req)
    then if String.eqb (method req) "POST" then upload req w
         else (inr MethodNotAllowed, w)
    else (inr NotFound, w).
Proof.
  unfold App.dispatch_request, url_map. cbn [List.filter rule].
  destruct (String.eqb "/" (path req)) eqn:Hroot.
  - apply String.eqb_eq in Hroot as <-. cbn.
    by destruct (String.eqb (method req) "GET").
  - destruct (String.eqb "/upload" (path req)); cbn; [|done].
    by destruct (String.eqb (method req) "POST").
Qed.

Lemma dispatch_upload (req : Request) w :
  method req = "POST" → path req = "/upload" →
  dispatch_request req w = upload req w.
Proof. intros Hm Hp. by rewrite dispatch_request_routes, Hm, Hp. Qed.


(** C3, as amended. [upload] has no branch that handles an error. When
    no file is uploaded it raises; and whenever one of its steps raises
    (the making of the images directory, the saving of a file, the
    reading of the image, of the label file or of the graph file at the
    moment the handler gets to it, the decoding of the labels, the run of
    the graph, the pairing of labels and scores), the handler ends with
    that very exception and the machine as the step left it. The
    exception leaves the dispatch of the request as raised, and whatever
    the handler returns is the rendered results page, never an error
    response. *)
Theorem upload_failures_are_uncaught (req : Request) w :
  (getlist "file" req = [] →
   (∃ e w', upload req w = (inl e, w')) ∧
   ∀ isdir w0 w1,
     path_isdir sys target w = (inr isdir, w0) →
     (if negb isdir then mkdir sys target else ret tt) w0 = (inr tt, w1) →
     upload req w = (inl (UnboundLocalError "destination"), w1)) ∧
  (∀ e w0, path_isdir sys target w = (inl e, w0) → upload req w = (inl e, w0)) ∧
  (∀ isdir w0,
     path_isdir sys target w = (inr isdir, w0) →
     (∀ e w1, (if negb isdir then mkdir sys target else ret tt) w0 = (inl e, w1) →
        upload req w = (inl e, w1)) ∧
     ∀ w1, (if negb isdir then mkdir sys target else ret tt) w0 = (inr tt, w1) →
       (∀ before file after w2 e w3,
          getlist "file" req = before ++ file :: after →
          saved_in_order before w1 w2 →
          file_save sys file (destination_of file) w2 = (inl e, w3) →
          upload req w = (inl e, w3)) ∧
       ∀ fs image w2,
         getlist "file" req = fs ++ [image] →
         saved_in_order (fs ++ [image]) w1 w2 →
         (∀ e w3, file_read sys (destination_of image) w2 = (inl e, w3) →
            upload req w = (inl e, w3)) ∧
         ∀ image_data w3,
           file_read sys (destination_of image) w2 = (inr image_data, w3) →
           (∀ e w4, file_read sys "retrained_labels.txt" w3 = (inl e, w4) →
              upload req w = (inl e, w4)) ∧
           ∀ labels_text w4,
             file_read sys "retrained_labels.txt" w3 = (inr labels_text, w4) →
             (∀ e, label_lines labels_text = Raise e →
                upload req w = (inl e, w4)) ∧
             ∀ labels, label_lines labels_text = Ok labels →
               (∀ e w5, file_read sys "retrained_graph.pb" w4 = (inl e, w5) →
                  upload req w = (inl e, w5)) ∧
               ∀ graph w5,
                 file_read sys "retrained_graph.pb" w4 = (inr graph, w5) →
                 (∀ e, session_run graph image_data = Raise e →
                    upload req w = (inl e, w5)) ∧
                 ∀ predictions, session_run graph image_data = Ok predictions →
                   (∀ e, getitem predictions 0 = Raise e →
                      upload req w = (inl e, w5)) ∧
                   ∀ prediction e,
                     getitem predictions 0 = Ok prediction →
                     classify argsort labels prediction = Raise e →
                     upload req w = (inl e, w5)) ∧
  (∀ e w', method req = "POST" → path req = "/upload" →
     upload req w = (inl e, w') → dispatch_request req w = (inl e, w')) ∧
  (∀ resp w', upload req w = (inr resp, w') →
     getlist "file" req ≠ [] ∧
     ∃ name scores,
       resp = render_template "complete.html"
                [("name", StrList name); ("scores", NumList scores)]).
Proof.
  split; [|split; [|split; [|split]]].
  - intros Hnone. split.
    + destruct (upload req w) as [[e|resp] w'] eqn:Hrun; [by eexists _, _|].
      apply upload_inv in Hrun as (fs & image & ? & ? & ? & ? & ? & ? & ? & ?
        & ? & ? & ? & ? & ? & Hfiles & _).
      rewrite Hnone in Hfiles. by destruct fs.
    + intros isdir w0 w1 Hisdir Hmkdir. unfold App.upload.
      pass Hisdir. pass Hmkdir. by rewrite Hnone.
  - intros e w0 Hisdir. unfold App.upload. by apply bind_raised.
  - intros isdir w0 Hisdir. split.
    { intros e w1 Hmkdir. unfold App.upload. pass Hisdir.
      by apply bind_raised. }
    intros w1 Hmkdir. split.
    { intros before file after w2 e w3 Hfiles Hsaved Hfails. unfold App.upload.
      pass Hisdir. pass Hmkdir. rewrite Hfiles.
      by apply bind_raised, (save_files_raised before file after None w1 w2). }
    intros fs image w2 Hfiles Hsaved.
    assert (Hstart : ∀ k : option string → M (state sys) Response,
              bind (path_isdir sys target) (λ isdir,
                bind (if negb isdir then mkdir sys target else ret tt) (λ _,
                  bind (save_files (getlist "file" req) None) k)) w
              = k (Some (destination_of image)) w2).
    { intros k. pass Hisdir. pass Hmkdir. rewrite Hfiles.
      pass (save_files_run _ None _ _ Hsaved). by rewrite last_snoc. }
    unfold App.upload. rewrite Hstart. erewrite bind_ok by reflexivity.
    split; [intros e w3 Himage; by apply bind_raised|].
    intros image_data w3 Himage. pass Himage.
    split; [intros e w4 Hlabels; by apply bind_raised|].
    intros labels_text w4 Hlabels. pass Hlabels.
    split; [intros e Hlines; by apply bind_lift_raised|].
    intros labels Hlines. pass_pure Hlines.
    split; [intros e w5 Hgraph; by apply bind_raised|].
    intros graph w5 Hgraph. pass Hgraph.
    split; [intros e Hsession; by apply bind_lift_raised|].
    intros predictions Hsession. pass_pure Hsession.
    split; [intros e Hfirst; by apply bind_lift_raised|].
    intros prediction e Hfirst Hfound. pass_pure Hfirst.
    by apply bind_lift_raised.
  - intros e w' Hm Hp Hrun. by rewrite dispatch_upload.
  - intros resp w' Hrun.
    apply upload_inv in Hrun as (fs & image & ? & ? & ? & ? & ? & ? & ? & ?
      & ? & ? & ? & ? & found & Hfiles & ? & ? & ? & ? & ? & ? & ? & ? & ? & ?
      & ->).
    split; [rewrite Hfiles; by destruct fs|]. by eexists _, _.
Qed.
End Upload.




Lemma upload_failures_are_uncaught_witness :
  upload Posix.posix example_root example_argsort example_session_run
    empty_upload example_fs
  = (inl (UnboundLocalError "destination"), example_fs) ∧
  dispatch_request Posix.posix example_root example_argsort example_session_run
    empty_upload example_fs
  = (inl (UnboundLocalError "destination"), example_fs).
Proof.
  destruct (upload_failures_are_uncaught Posix.posix example_root
              example_argsort example_session_run empty_upload example_fs)
    as (Hnone & _ & _ & Hdispatch & _).
  destruct (Hnone eq_refl) as [_ Hunbound].
  assert (Hrun : upload Posix.posix example_root example_argsort
                   example_session_run empty_upload example_fs
                 = (inl (UnboundLocalError "destination"), example_fs)).
  { apply (Hunbound true example_fs example_fs); vm_compute; reflexivity. }
  split; [exact Hrun|]. by apply Hdispatch.
Defined.

(** C3, as stated, fails when the upload itself supplies the file that is
    missing: before [retrained_labels.txt] exists, a POST of two files,
    the first of them named [../retrained_labels.txt], saves that file
    next to the application, where the handler then finds it, and the
    results page is rendered. *)
Lemma upload_supplies_the_label_file :
  method upload_with_labels = "POST" ∧ path upload_with_labels = "/upload" ∧
  (file_read Posix.posix "retrained_labels.txt" fs_without_labels).1
  = inl (NotFoundError "retrained_labels.txt") ∧
  ∃ w',
    upload Posix.posix example_root example_argsort example_session_run
      upload_with_labels fs_without_labels
    = (inr (render_template "complete.html"
              [("name", StrList ["rust"; "scab"]);
               ("scores", NumList [ (6000 # 100); (2500 # 100) ]%Q)]), w') ∧
    dispatch_request Posix.posix example_root example_argsort
      example_session_run upload_with_labels fs_without_labels
    = (inr (render_template "complete.html"
              [("name", StrList ["rust"; "scab"]);
               ("scores", NumList [ (6000 # 100); (2500 # 100) ]%Q)]), w').
Proof.
  split; [reflexivity|]. split; [reflexivity|].
  split; [vm_compute; reflexivity|].
  eexists. split; vm_compute; reflexivity.
Qed.

End AppFacts.


(** * Further properties *)

(** ** The model-spec registry, continued *)

Module ModelSpecMore.
Import ModelSpec Examples ModelSpecFacts.

Section Registry.
Variable env : imports.
Variable call : value → result value.

(** X1. Asking for a spec by its name gives what asking with the registered
    entry itself gives, as long as the entry is not a string. *)
Theorem get_name_as_entry (s : string) (v : value) :
  MODEL_SPECS env !! s = Some v → isinstance_str v = false →
  get env call (Str s) = get env call v.
Proof.
  intros Hs Hv. rewrite get_str_lookup, Hs. by destruct v.
Qed.

(** X2. [get] raises in two cases only: [KeyError] for a string that is not
    a key of [MODEL_SPECS], and whatever the call of a class or function
    raises, the class or function being the argument or the entry found
    under it. *)
Theorem get_raises (x : value) (e : exn) :
  get env call x = Raise e →
  (∃ s, x = Str s ∧ MODEL_SPECS env !! s = None ∧ e = KeyError s) ∨
  (∃ v, (x = v ∨ ∃ s, x = Str s ∧ MODEL_SPECS env !! s = Some v) ∧
        isclass v || isfunction v = true ∧ call v = Raise e).
Proof.
  intros Hrun. destruct x as [s| | |].
  - rewrite get_str_lookup in Hrun.
    destruct (MODEL_SPECS env !! s) as [v|] eqn:Hs.
    + right. exists v. split; [right; by exists s|].
      destruct (isclass v || isfunction v); [done|discriminate Hrun].
    + left. exists s. injection Hrun as <-. done.
  - right. eexists. split; [by left|]. done.
  - right. eexists. split; [by left|]. done.
  - discriminate Hrun.
Qed.
End Registry.

Lemma get_name_as_entry_witness :
  get example_env example_call (Str "resnet_50")
  = get example_env example_call (Function "resnet_50_spec").
Proof.
  apply (get_name_as_entry example_env example_call "resnet_50"
           (Function "resnet_50_spec")); reflexivity.
Defined.

Lemma get_raises_witness :
  (∃ s, Str "vgg16" = Str s ∧ MODEL_SPECS example_env !! s = None
        ∧ KeyError "vgg16" = KeyError s) ∨
  (∃ v, (Str "vgg16" = v
         ∨ ∃ s, Str "vgg16" = Str s ∧ MODEL_SPECS example_env !! s = Some v) ∧
        isclass v || isfunction v = true ∧
        example_call v = Raise (KeyError "vgg16")).
Proof.
  apply (get_raises example_env example_call (Str "vgg16") (KeyError "vgg16")).
  reflexivity.
Defined.

End ModelSpecMore.

(** ** The data loader, continued *)

Module DataUtilMore.
Import DataUtil Examples DataUtilFacts.


Lemma Qfloor_below (x : Q) (n : Z) : (x < inject_Z n)%Q → Qfloor x < n.
Proof.
  intros Hx. rewrite Zlt_Qlt. eapply Qle_lt_trans; [apply Qfloor_le|done].
Qed.

Lemma Qfloor_zero (x : Q) : (0 <= x)%Q → Qfloor x = 0 ↔ (x < 1)%Q.
Proof.
  intros H0. split.
  - intros Hz. pose proof (Qlt_floor x) as Hlt. by rewrite Hz in Hlt.
  - intros H1. apply (Qfloor_below x 1) in H1.
    apply Qfloor_resp_le in H0. change (Qfloor 0) with 0 in H0. lia.
Qed.

Section Loader.
Context {Elem Fn : Type}.
Implicit Types (h : heap Elem Fn) (o : object Elem Fn) (ds : dataset Elem Fn).



(** X6. Without [is_training], [gen_dataset] ignores [shuffle]: whatever
    the flag, the result is the one for [shuffle = False], and among the
    calls made on the stored dataset there is neither a shuffle nor a
    repeat. *)
Theorem gen_dataset_not_training h self o batch_size (shuffle : bool) ctx
    (preprocess : option Fn) :
  h !! self = Some o →
  gen_dataset self batch_size false shuffle ctx preprocess h
  = gen_dataset self batch_size false false ctx preprocess h ∧
  ∃ ds calls,
    gen_dataset self batch_size false shuffle ctx preprocess h = (inr ds, h) ∧
    transformations ds = transformations (_dataset o) ++ calls ∧
    Forall (λ t, stage t ≠ 2%nat ∧ stage t ≠ 3%nat) calls.
Proof.
  intros Hself. rewrite !(gen_dataset_run _ _ _ _ _ _ _ _ Hself).
  split; [done|]. do 2 eexists. split; [done|].
  split; [apply transformations_apply|].
  unfold described_calls. cbn [andb].
  destruct ctx as [c|]; [destruct (1 <? num_input_pipelines c)|];
    destruct preprocess; cbn [app]; repeat constructor; done.
Qed.
End Loader.



Lemma gen_dataset_not_training_witness :
  gen_dataset 0%nat 2 false true None (Some 7%nat) example_heap
  = gen_dataset 0%nat 2 false false None (Some 7%nat) example_heap.
Proof.
  apply (gen_dataset_not_training example_heap 0%nat
           (DataLoader (Source [10; 11; 12; 13; 14]%nat) 5)).
  reflexivity.
Defined.

End DataUtilMore.

(** ** The upload application, continued *)

Module AppMore.
Import App Examples Sums AppFacts.

Local Arguments String.append !_ _ / : simpl nomatch.

(** *** Lines and labels *)

Ltac nlia := zify; Z.to_euclidean_division_equations; lia.

(** Comparisons of numbers that hold as booleans, as propositions. *)
Ltac ranges :=
  repeat match goal with
         | H : _ && _ = true |- _ => apply andb_true_iff in H as [? ?]
         | H : (_ <=? _)%N = true |- _ => apply N.leb_le in H
         | H : (_ =? _)%N = true |- _ => apply N.eqb_eq in H
         | H : (_ =? _)%N = false |- _ => apply N.eqb_neq in H
         end.

Lemma without_cr_app (a b : string) :
  without_cr (a ++ b) = (without_cr a ++ without_cr b)%string.
Proof.
  induction a as [|c a IH]; [done|]. cbn.
  destruct (Ascii.eqb c carriage_return); cbn; by rewrite IH.
Qed.

Lemma without_cr_contains c (a : string) :
  contains c a = false → contains c (without_cr a) = false.
Proof.
  induction a as [|d a IH]; [done|]. cbn. intros Ha.
  apply orb_false_iff in Ha as [Hd Ha].
  destruct (Ascii.eqb d carriage_return); cbn; [by apply IH|].
  by rewrite Hd, IH.
Qed.

Lemma split_lines_first_line (a rest : string) :
  contains newline a = false →
  split_lines (a ++ String newline rest)
  = (a ++ String newline "")%string :: split_lines rest.
Proof.
  induction a as [|c a IH]; intros Ha; cbn.
  - reflexivity.
  - cbn in Ha. apply orb_false_iff in Ha as [Hc Ha].
    rewrite Hc. by rewrite (IH Ha).
Qed.

Lemma split_lines_single_line (a : string) :
  contains newline a = false → a ≠ "" → split_lines a = [a].
Proof.
  induction a as [|c a IH]; intros Ha Hne; [done|]. cbn in *.
  apply orb_false_iff in Ha as [Hc Ha]. rewrite Hc.
  destruct a as [|d a]; [done|]. by rewrite (IH Ha).
Qed.

Lemma rstrip_all_space (ws : str) : all_space ws = true → rstrip ws = [].
Proof.
  induction ws as [|c ws IH]; [done|]. cbn. intros Hws.
  apply andb_true_iff in Hws as [Hc Hws]. by rewrite (IH Hws), Hc.
Qed.

Lemma rstrip_app_space (a ws : str) :
  all_space ws = true → rstrip (a ++ ws) = rstrip a.
Proof.
  intros Hws. induction a as [|c a IH]; cbn; [by apply rstrip_all_space|].
  by rewrite IH.
Qed.

Lemma rstrip_fixed (s : str) : no_trailing_space s = true → rstrip s = s.
Proof.
  induction s as [|c s IH]; [done|]. intros Hs. destruct s as [|d s].
  - cbn in *. by destruct (isspace c).
  - change (no_trailing_space (c :: d :: s))
      with (no_trailing_space (d :: s)) in Hs.
    change (rstrip (c :: d :: s))
      with (match rstrip (d :: s) with
            | [] => if isspace c then [] else [c]
            | kept => c :: kept
            end).
    by rewrite (IH Hs).
Qed.

Lemma rstrip_elem_of (c : N) (s : str) : c ∈ rstrip s → c ∈ s.
Proof.
  intros Hc. destruct (rstrip_split s) as (ws & Heq & _). rewrite Heq.
  apply elem_of_app. by left.
Qed.

Lemma ord_newline (c : ascii) : ord c = 10%N → c = newline.
Proof.
  unfold ord. intros Hc. rewrite <- (ascii_N_embedding c), Hc. reflexivity.
Qed.

Lemma ord_of_N (n : N) : (n < 256)%N → ord (ascii_of_N n) = n.
Proof. apply N_ascii_embedding. Qed.

Lemma eqb_newline_false (c : ascii) :
  ord c ≠ 10%N → Ascii.eqb c newline = false.
Proof.
  intros Hc. apply Ascii.eqb_neq. intros ->. by apply Hc.
Qed.

(** A text without line feed decodes to a [str] without line feed. *)
Lemma utf8_decode_no_newline (s : string) (t : str) :
  contains newline s = false → utf8_decode s = Some t → 10%N ∉ t.
Proof.
  remember (String.length s) as n eqn:Hn. revert s t Hn.
  induction n as [n IH] using lt_wf_ind. intros s t -> Hs Ht.
  destruct s as [|c0 s1]; [injection Ht as <-; apply not_elem_of_nil|].
  cbn [contains] in Hs. apply orb_false_iff in Hs as [Hc0 Hs1].
  apply Ascii.eqb_neq in Hc0.
  assert (Hb0 : ord c0 ≠ 10%N) by (intros Hb; by apply ord_newline in Hb).
  cbn [utf8_decode] in Ht. destruct (ord c0 <? 128)%N.
  { destruct (utf8_decode s1) as [t1|] eqn:Ht1; [|done]. injection Ht as <-.
    apply not_elem_of_cons. split; [done|].
    apply (IH (String.length s1)) with (s := s1); cbn; (done || lia). }
  destruct ((194 <=? ord c0) && (ord c0 <=? 223))%N eqn:H2.
  { destruct s1 as [|c1 s2]; [done|].
    destruct (continuation (ord c1)) eqn:Hc1; [|done].
    destruct (utf8_decode s2) as [t2|] eqn:Ht2; [|done]. injection Ht as <-.
    cbn [contains] in Hs1. apply orb_false_iff in Hs1 as [_ Hs2].
    unfold continuation in Hc1. ranges. apply not_elem_of_cons. split; [lia|].
    apply (IH (String.length s2)) with (s := s2); cbn; (done || lia). }
  destruct ((224 <=? ord c0) && (ord c0 <=? 239))%N eqn:H3.
  { destruct s1 as [|c1 [|c2 s3]]; [done|done|].
    destruct (second_of_three (ord c0) (ord c1) && continuation (ord c2))
      eqn:Hc; [|done].
    destruct (utf8_decode s3) as [t3|] eqn:Ht3; [|done]. injection Ht as <-.
    cbn [contains] in Hs1. apply orb_false_iff in Hs1 as [_ Hs2].
    apply orb_false_iff in Hs2 as [_ Hs3].
    unfold second_of_three, continuation in *.
    apply not_elem_of_cons. split.
    { destruct (ord c0 =? 224)%N eqn:?, (ord c0 =? 237)%N eqn:?; ranges; lia. }
    apply (IH (String.length s3)) with (s := s3); cbn; (done || lia). }
  destruct ((240 <=? ord c0) && (ord c0 <=? 244))%N eqn:H4; [|done].
  destruct s1 as [|c1 [|c2 [|c3 s4]]]; [done|done|done|].
  destruct (second_of_four (ord c0) (ord c1) && continuation (ord c2)
            && continuation (ord c3)) eqn:Hc; [|done].
  destruct (utf8_decode s4) as [t4|] eqn:Ht4; [|done]. injection Ht as <-.
  cbn [contains] in Hs1. apply orb_false_iff in Hs1 as [_ Hs2].
  apply orb_false_iff in Hs2 as [_ Hs3]. apply orb_false_iff in Hs3 as [_ Hs4].
  unfold second_of_four, continuation in *.
  apply not_elem_of_cons. split.
  { destruct (ord c0 =? 240)%N eqn:?, (ord c0 =? 244)%N eqn:?; ranges; lia. }
  apply (IH (String.length s4)) with (s := s4); cbn; (done || lia).
Qed.

(** Decoding a text that ends in an ASCII character: the character is
    decoded on its own. *)
Lemma utf8_decode_snoc (c : ascii) (s : string) :
  (ord c < 128)%N →
  utf8_decode (s ++ String c "") = (λ t, t ++ [ord c]) <$> utf8_decode s.
Proof.
  intros Hc. remember (String.length s) as n eqn:Hn. revert s Hn.
  induction n as [n IH] using lt_wf_ind. intros s ->.
  assert (Hascii : (ord c <? 128)%N = true) by by apply N.ltb_lt.
  assert (Hcont : continuation (ord c) = false).
  { unfold continuation. apply andb_false_iff. left. apply N.leb_gt. lia. }
  assert (Hstep : ∀ s' : string,
            (String.length s' < String.length s)%nat →
            ∀ x : N,
              cons x <$> utf8_decode (s' ++ String c "")
              = (λ t, t ++ [ord c]) <$> (cons x <$> utf8_decode s')).
  { intros s' Hlen x. rewrite (IH _ Hlen s' eq_refl).
    by destruct (utf8_decode s'). }
  destruct s as [|c0 s1]; [cbn; by rewrite Hascii|].
  cbn [String.append utf8_decode]. destruct (ord c0 <? 128)%N.
  { apply Hstep. cbn. lia. }
  destruct ((194 <=? ord c0) && (ord c0 <=? 223))%N.
  { destruct s1 as [|c1 s2]; cbn [String.append]; [by rewrite Hcont|].
    destruct (continuation (ord c1)); [|done]. apply Hstep. cbn. lia. }
  destruct ((224 <=? ord c0) && (ord c0 <=? 239))%N.
  { destruct s1 as [|c1 [|c2 s3]]; cbn [String.append]; [done| |].
    - by rewrite Hcont, andb_false_r.
    - destruct (second_of_three (ord c0) (ord c1) && continuation (ord c2));
        [|done].
      apply Hstep. cbn. lia. }
  destruct ((240 <=? ord c0) && (ord c0 <=? 244))%N; [|done].
  destruct s1 as [|c1 [|c2 [|c3 s4]]]; cbn [String.append]; [done|done| |].
  - by rewrite Hcont, andb_false_r.
  - destruct (second_of_four (ord c0) (ord c1) && continuation (ord c2)
              && continuation (ord c3)); [|done].
    apply Hstep. cbn. lia.
Qed.

(** The label of a line does not change with the line feed at its end. *)
Lemma label_of_line_newline (a : string) :
  label_of_line (a ++ String newline "") = label_of_line a.
Proof.
  unfold label_of_line, as_str. rewrite utf8_decode_snoc by done.
  destruct (utf8_decode a) as [t|]; [|done]. cbn.
  by rewrite rstrip_app_space.
Qed.

Lemma encode_char_no_newline (c : N) :
  c ≠ 10%N → contains newline (encode_char c) = false.
Proof.
  intros Hc. unfold encode_char.
  destruct (c <? 128)%N eqn:H1.
  { apply N.ltb_lt in H1. cbn. rewrite eqb_newline_false; [done|].
    rewrite ord_of_N by lia. done. }
  destruct (c <? 2048)%N eqn:H2.
  { apply N.ltb_lt in H2. cbn.
    rewrite !eqb_newline_false; [done| |]; rewrite ord_of_N; nlia. }
  destruct (c <? 65536)%N eqn:H3.
  { apply N.ltb_lt in H3. cbn.
    rewrite !eqb_newline_false; [done| | |]; rewrite ord_of_N; nlia. }
  cbn. rewrite !eqb_newline_false; [done| | | |]; rewrite ord_of_N; nlia.
Qed.

Lemma utf8_encode_no_newline (t : str) :
  10%N ∉ t → contains newline (utf8_encode t) = false.
Proof.
  induction t as [|c t IH]; [done|]. intros Ht.
  apply not_elem_of_cons in Ht as [Hc Ht]. cbn [utf8_encode].
  rewrite contains_app, encode_char_no_newline, IH by done. done.
Qed.

(** The label of a line of the file has no line feed. *)
Lemma label_no_newline (text line : string) (t : str) :
  line ∈ readlines text → utf8_decode line = Some t → 10%N ∉ rstrip t.
Proof.
  intros Hin Ht. apply list_elem_of_lookup in Hin as [i Hi].
  destruct (split_lines_lines _ i line Hi)
    as (body & Hbody & [->|(-> & _ & _)]).
  - rewrite utf8_decode_snoc in Ht by done.
    destruct (utf8_decode body) as [tb|] eqn:Htb; [|done]. injection Ht as <-.
    rewrite rstrip_app_space by done. intros Hc%rstrip_elem_of.
    by apply (utf8_decode_no_newline body tb).
  - intros Hc%rstrip_elem_of. by apply (utf8_decode_no_newline body t).
Qed.

(** X7. The label list follows the file line by line: an empty file has
    no label; a text without line feed has one label, unless nothing but
    carriage returns is in it; and a text that starts with a line [a] and
    its line feed has the label of [a] followed by the labels of the
    rest. The label of a line is taken from the line without its carriage
    returns, and is the same with and without the line feed. *)
Theorem label_lines_equations :
  label_lines "" = Ok [] ∧
  (∀ a, contains newline a = false → without_cr a ≠ "" →
     label_lines a
     = rbind (label_of_line (without_cr a)) (λ label,
         Ok [utf8_encode label])) ∧
  (∀ a, contains newline a = false → without_cr a = "" → label_lines a = Ok []) ∧
  (∀ a rest, contains newline a = false →
     label_lines (a ++ String newline rest)
     = rbind (label_of_line (without_cr a)) (λ label,
         rbind (label_lines rest) (λ labels,
           Ok (utf8_encode label :: labels)))) ∧
  (∀ a, label_of_line (a ++ String newline "") = label_of_line a).
Proof.
  split; [done|]. split; [|split; [|split]].
  - intros a Ha Hne. unfold label_lines, readlines.
    rewrite split_lines_single_line by (by try apply without_cr_contains).
    cbn [label_texts]. by destruct (label_of_line (without_cr a)).
  - intros a Ha Hnone. unfold label_lines, readlines. by rewrite Hnone.
  - intros a rest Ha. unfold label_lines, readlines.
    rewrite without_cr_app. cbn [without_cr].
    change (Ascii.eqb newline carriage_return) with false. cbn match.
    rewrite split_lines_first_line by (by apply without_cr_contains).
    cbn [label_texts]. rewrite label_of_line_newline.
    destruct (label_of_line (without_cr a)) as [e|label]; [done|]. cbn.
    by destruct (label_texts (split_lines (without_cr rest))).
  - apply label_of_line_newline.
Qed.

Lemma label_lines_equations_witness :
  label_lines (String "r" (String carriage_return "") ++ String newline "scab")
  = Ok ["r"; "scab"].
Proof.
  destruct label_lines_equations as (_ & Hlast & _ & Hline & _).
  rewrite (Hline (String "r" (String carriage_return "")) "scab") by reflexivity.
  rewrite (Hlast "scab"); [reflexivity|reflexivity|discriminate].
Defined.

(** X8. No label contains a line feed or ends in white space, and stripping
    a label again changes nothing. *)
Theorem labels_are_clean (text : string) (labels : list string) (label : string) :
  label_lines text = Ok labels → label ∈ labels →
  contains newline label = false ∧
  ∃ t : str,
    label = utf8_encode t ∧
    no_trailing_space t = true ∧
    rstrip t = t.
Proof.
  intros Hrun Hin.
  apply label_lines_returns in Hrun as (texts & Htexts & ->).
  apply list_elem_of_fmap in Hin as (t & -> & Ht).
  apply list_elem_of_lookup in Ht as [i Hi].
  apply label_texts_returns in Htexts as [Hlen Hall].
  destruct (lookup_lt_is_Some_2 (readlines text) i) as [line Hline].
  { rewrite <- Hlen. by eapply lookup_lt_Some. }
  destruct (Hall i line Hline) as (t0 & Ht0 & Hlabel).
  rewrite Hi in Hlabel. injection Hlabel as ->.
  pose proof (rstrip_no_trailing_space t0) as Hclean. split.
  - apply utf8_encode_no_newline, (label_no_newline text line); [|done].
    by eapply list_elem_of_lookup_2.
  - exists (rstrip t0). split; [done|]. split; [done|by apply rstrip_fixed].
Qed.

Lemma labels_are_clean_witness :
  contains newline "rust" = false ∧
  ∃ t : str, "rust" = utf8_encode t ∧ no_trailing_space t = true ∧ rstrip t = t.
Proof.
  apply (labels_are_clean
           ("healthy" ++ String newline ("rust  " ++ String newline "scab"))%string
           ["healthy"; "rust"; "scab"]).
  - reflexivity.
  - right. left.
Defined.

(** *** Files and directories *)

Lemma append_assoc (a b c : string) : ((a ++ b) ++ c = a ++ (b ++ c))%string.
Proof. induction a as [|d a IH]; cbn; congruence. Qed.

Section Upload.
Variable APP_ROOT : string.
Variable argsort : list Q → list nat.
Variable session_run : string → string → result (list (list Q)).

Local Abbreviation target := (App.target APP_ROOT).
Local Abbreviation destination_of := (App.destination_of APP_ROOT).
Local Abbreviation upload := (App.upload flat APP_ROOT argsort session_run).
Local Abbreviation dispatch_request :=
  (App.dispatch_request flat APP_ROOT argsort session_run).

(** X9. The path a file is saved under is the app root, [images], two
    slashes and the file's own name: [target] ends in a slash already when
    it is joined to the name with another one. *)
Theorem destination_double_slash (f : FileStorage) :
  ∃ root : string,
    destination_of f = (root ++ "images//" ++ filename f)%string ∧
    (root = APP_ROOT ∨ root = (APP_ROOT ++ "/")%string).
Proof.
  rewrite destination_of_eq. unfold App.target, os_path_join.
  cbn [startswith_slash Ascii.eqb]. cbn.
  destruct (String.eqb APP_ROOT "" || endswith_slash APP_ROOT).
  - exists APP_ROOT. split; [|by left]. by rewrite append_assoc.
  - exists (APP_ROOT ++ "/")%string. split; [|by right].
    by rewrite !append_assoc.
Qed.



(** X14. Only a POST to [/upload] runs the upload handler: the dispatch of
    every other request raises nothing and leaves the files and directories
    as they are. *)
Theorem other_requests_change_nothing (req : Request) (w : world) :
  ¬ (path req = "/upload" ∧ method req = "POST") →
  ∃ resp, dispatch_request req w = (inr resp, w).
Proof.
  intros Hnot. rewrite dispatch_request_routes.
  destruct (String.eqb "/" (path req)).
  - destruct (String.eqb (method req) "GET"); by eexists.
  - destruct (String.eqb "/upload" (path req)) eqn:Hp; [|by eexists].
    destruct (String.eqb (method req) "POST") eqn:Hm; [|by eexists].
    apply String.eqb_eq in Hp, Hm. destruct Hnot. by split.
Qed.
End Upload.


Lemma other_requests_change_nothing_witness :
  ∃ resp,
    dispatch_request flat example_root example_argsort example_session_run
      {| method := "GET"; path := "/upload";
         request_files :=
           [("file", {| filename := "leaf.jpg"; stream := "jpeg" |})] |}
      example_world
    = (inr resp, example_world).
Proof.
  apply (other_requests_change_nothing example_root example_argsort
           example_session_run).
  intros [_ Hm]. discriminate Hm.
Defined.

(** *** The classification loop *)

Lemma Qsum_Permutation (l1 l2 : list Q) : l1 ≡ₚ l2 → (Qsum l1 == Qsum l2)%Q.
Proof.
  induction 1 as [|x l1 l2 _ IH|x y l|l1 l2 l3 _ IH1 _ IH2]; cbn.
  - reflexivity.
  - by rewrite IH.
  - ring.
  - by rewrite IH1.
Qed.

Lemma map_nth_seq_shift (before p : list Q) :
  map (λ i, nth i (before ++ p) 0%Q) (seq (length before) (length p)) = p.
Proof.
  revert before. induction p as [|x p IH]; intros before; [done|].
  cbn [length seq map]. rewrite nth_middle. f_equal.
  specialize (IH (before ++ [x])).
  rewrite <- app_assoc, length_app in IH. cbn in IH.
  by rewrite Nat.add_1_r in IH.
Qed.

Lemma List_filter_Permutation {A} (f : A → bool) (l1 l2 : list A) :
  l1 ≡ₚ l2 → List.filter f l1 ≡ₚ List.filter f l2.
Proof.
  induction 1 as [|x l1 l2 _ IH|x y l|l1 l2 l3 _ IH1 _ IH2]; cbn.
  - done.
  - destruct (f x); by rewrite IH.
  - destruct (f x), (f y); try done. apply perm_swap.
  - by rewrite IH1.
Qed.

Lemma combine_map {A B C} (f : A → B) (g : A → C) (l : list A) :
  combine (map f l) (map g l) = map (λ x, (f x, g x)) l.
Proof. induction l as [|x l IH]; cbn; congruence. Qed.

Lemma collect_raises (L : list string) (p : list Q) (ks : list nat)
    (name : list string) (scores : list Q) (e : exn) :
  collect L p ks name scores = Raise e → e = IndexError.
Proof.
  revert name scores. induction ks as [|j ks IH]; intros name scores Hrun;
    [done|].
  cbn [collect] in Hrun. unfold getitem in Hrun.
  destruct (L !! j); [|by injection Hrun].
  destruct (p !! j) as [x|]; [|by injection Hrun]. cbn in Hrun.
  destruct (Qltb 20 (x * 100)); by eapply IH.
Qed.

Section Classification.
Variable L : list string.
Variable p : list Q.

Local Abbreviation value j := (nth j p 0%Q).
Local Abbreviation passes := (λ j : nat, Qltb 20 (nth j p 0%Q * 100)%Q).

(** X15. When the label list is shorter than the prediction vector, the
    loop raises [IndexError], whatever the scores are: the label of an
    index is read before its score is compared with the threshold. *)
Theorem classify_index_error (argsort : list Q → list nat) :
  is_argsort p (argsort p) → (length L < length p)%nat →
  classify argsort L p = Raise IndexError.
Proof.
  intros Hsort Hlen. destruct (classify argsort L p) as [e|found] eqn:Hrun.
  - apply collect_raises in Hrun as ->. done.
  - exfalso. apply collect_in_range in Hrun. rewrite Forall_forall in Hrun.
    destruct (Hrun (length L)) as [HL _]; [|lia].
    by apply top_k_indices.
Qed.

Lemma passes_above (ks : list nat) :
  (inject_Z (Z.of_nat (length (List.filter passes ks))) * (1 # 5)
   <= Qsum (map (λ j, value j) (List.filter passes ks)))%Q ∧
  (List.filter passes ks ≠ [] →
   (inject_Z (Z.of_nat (length (List.filter passes ks))) * (1 # 5)
    < Qsum (map (λ j, value j) (List.filter passes ks)))%Q).
Proof.
  induction ks as [|j ks [IHle IHlt]]; cbn [List.filter].
  - split; [by vm_compute|done].
  - destruct (Qltb 20 (value j * 100)) eqn:Hj; [|done].
    apply Qltb_lt in Hj. cbn [length map Qsum foldr].
    rewrite Nat2Z.inj_succ, <- Z.add_1_r, inject_Z_plus.
    change (foldr Qplus 0%Q (map (λ j, value j) (List.filter passes ks)))
      with (Qsum (map (λ j, value j) (List.filter passes ks))).
    change (inject_Z 1) with 1%Q.
    split; [lra|]. intros _. lra.
Qed.

Lemma Qsum_filter_le (ks : list nat) :
  (∀ x, x ∈ p → (0 <= x)%Q) →
  (Qsum (map (λ j, value j) (List.filter passes ks))
   <= Qsum (map (λ j, value j) ks))%Q.
Proof.
  intros Hpos. induction ks as [|j ks IH]; cbn [List.filter]; [by vm_compute|].
  assert (Hj : (0 <= value j)%Q).
  { destruct (nth_in_or_default j p 0%Q) as [Hin| ->]; [|lra].
    by apply Hpos, list_elem_of_In. }
  destruct (Qltb 20 (value j * 100)); cbn [map Qsum foldr];
    change (foldr Qplus 0%Q (map (λ j, value j) ks))
      with (Qsum (map (λ j, value j) ks));
    [change (foldr Qplus 0%Q (map (λ j, value j) (List.filter passes ks)))
       with (Qsum (map (λ j, value j) (List.filter passes ks)))|]; lra.
Qed.

(** X16. For a prediction vector of non-negative values that add up to at
    most 1, as a softmax gives, the results page shows at most four
    name/score pairs: each shown value is above a fifth. *)
Theorem at_most_four_results (argsort : list Q → list nat)
    (name : list string) (scores : list Q) :
  is_argsort p (argsort p) →
  (∀ x, x ∈ p → (0 <= x)%Q) → (Qsum p <= 1)%Q →
  classify argsort L p = Ok (name, scores) →
  (length name ≤ 4)%nat ∧ (length scores ≤ 4)%nat ∧ length name = length scores.
Proof.
  intros Hsort Hpos Hsum Hrun. unfold classify in Hrun.
  pose proof (collect_in_range _ _ _ _ _ _ Hrun) as Hin.
  rewrite (collect_run _ _ _ _ _ Hin) in Hrun. cbn [app] in Hrun.
  injection Hrun as <- <-. rewrite !length_map.
  set (chosen := List.filter passes (top_k argsort p)).
  assert (Hfour : (length chosen ≤ 4)%nat); [|lia].
  destruct (decide (chosen = [])) as [->|Hne]; [cbn; lia|].
  destruct (passes_above (top_k argsort p)) as [_ Hlt].
  specialize (Hlt Hne). fold chosen in Hlt.
  pose proof (Qsum_filter_le (top_k argsort p) Hpos) as Hle. fold chosen in Hle.
  assert (Hall : (Qsum (map (λ j, value j) (top_k argsort p)) == Qsum p)%Q).
  { rewrite <- (map_nth_seq_shift [] p) at 2. cbn [length app].
    apply Qsum_Permutation.
    change (map (λ j, value j) (top_k argsort p))
      with ((λ j, value j) <$> top_k argsort p).
    change (map (λ i, nth i p 0%Q) (seq 0 (length p)))
      with ((λ j, value j) <$> seq 0 (length p)).
    apply fmap_Permutation. rewrite (top_k_rev _ _ Hsort).
    destruct Hsort as [Hperm _]. rewrite <- Hperm.
    symmetry. apply Permutation_rev. }
  assert (Hfive : (inject_Z (Z.of_nat (length chosen)) < inject_Z 5)%Q).
  { change (inject_Z 5) with 5%Q. lra. }
  rewrite <- Zlt_Qlt in Hfive. lia.
Qed.

(** X17. The pairs shown do not depend on how [argsort] orders equal
    values: for any two orderings it may return, the lists of name/score
    pairs are permutations of each other. *)
Theorem classify_any_argsort (argsort1 argsort2 : list Q → list nat)
    (name1 name2 : list string) (scores1 scores2 : list Q) :
  is_argsort p (argsort1 p) → is_argsort p (argsort2 p) →
  classify argsort1 L p = Ok (name1, scores1) →
  classify argsort2 L p = Ok (name2, scores2) →
  combine name1 scores1 ≡ₚ combine name2 scores2.
Proof.
  intros Hsort1 Hsort2 Hrun1 Hrun2. unfold classify in *.
  pose proof (collect_in_range _ _ _ _ _ _ Hrun1) as Hin1.
  pose proof (collect_in_range _ _ _ _ _ _ Hrun2) as Hin2.
  rewrite (collect_run _ _ _ _ _ Hin1) in Hrun1.
  rewrite (collect_run _ _ _ _ _ Hin2) in Hrun2. cbn [app] in *.
  injection Hrun1 as <- <-. injection Hrun2 as <- <-.
  rewrite !combine_map. apply Permutation_map, List_filter_Permutation.
  rewrite (top_k_rev _ _ Hsort1), (top_k_rev _ _ Hsort2).
  destruct Hsort1 as [Hperm1 _], Hsort2 as [Hperm2 _].
  rewrite <- !Permutation_rev. by rewrite Hperm1, Hperm2.
Qed.
End Classification.

Lemma classify_index_error_witness :
  classify example_argsort ["healthy"] [ (15 # 100); (60 # 100); (25 # 100) ]%Q
  = Raise IndexError.
Proof.
  apply (classify_index_error ["healthy"]
           [ (15 # 100); (60 # 100); (25 # 100) ]%Q example_argsort).
  - split; [|reflexivity]. vm_compute. apply perm_skip, perm_swap.
  - vm_compute. lia.
Defined.

Lemma at_most_four_results_witness :
  (length ["rust"; "scab"] ≤ 4)%nat ∧
  (length [ ((60 # 100) * 100); ((25 # 100) * 100) ]%Q ≤ 4)%nat ∧
  length ["rust"; "scab"] = length [ ((60 # 100) * 100); ((25 # 100) * 100) ]%Q.
Proof.
  apply (at_most_four_results ["healthy"; "rust"; "scab"]
           [ (15 # 100); (60 # 100); (25 # 100) ]%Q example_argsort).
  - split; [|reflexivity]. vm_compute. apply perm_skip, perm_swap.
  - intros x Hx. apply list_elem_of_In in Hx. cbn in Hx.
    destruct Hx as [<-|[<-|[<-|[]]]]; by vm_compute.
  - by vm_compute.
  - reflexivity.
Defined.

Lemma classify_any_argsort_witness :
  combine ["scab"; "rust"; "healthy"]
    [ ((40 # 100) * 100); ((30 # 100) * 100); ((30 # 100) * 100) ]%Q
  ≡ₚ combine ["scab"; "healthy"; "rust"]
       [ ((40 # 100) * 100); ((30 # 100) * 100); ((30 # 100) * 100) ]%Q.
Proof.
  apply (classify_any_argsort ["healthy"; "rust"; "scab"]
           [ (30 # 100); (30 # 100); (40 # 100) ]%Q
           example_argsort (λ _, [1; 0; 2]%nat)).
  - split; [|reflexivity]. vm_compute. reflexivity.
  - split; [|reflexivity]. vm_compute. apply perm_swap.
  - reflexivity.
  - reflexivity.
Defined.

End AppMore.
